(** * Bun / Effect documentation MCP tools: document store, content cache,
    pagination and section extraction.

    Shallow embedding of [scripts/copy-package-json.ts] (the Bun corpus
    toolkit), [src/ReferenceDocs.ts] (the Effect corpus toolkit) and
    [src/Markdown.ts] (heading extraction).

    Modelling conventions.
    - JavaScript numbers received from the protocol layer (page, pageSize,
      startPage, endPage, depth) are finite doubles decoded from JSON; they
      are modelled as [Q].  Array lengths and line numbers are [Z].
    - The pagination bodies ([bun_page], [effect_page], [bun_pages], and
      the tools [get_bun_doc], [get_effect_doc], [get_bun_doc_pages] built
      on them) evaluate their arithmetic exactly.  [bun_page_f64] and
      [bun_pages_f64] round every operation to binary64 as JavaScript does
      ([JS.f64]); the two agree whenever the page numbers are whole and the
      document has fewer than 2^32 lines ([bun_page_f64_exact],
      [bun_pages_f64_exact]); on fractional pages they can differ.
    - A value that may be [undefined] or [NaN] at run time is an [option Z]
      ([None] = undefined / NaN).
    - Strings are Stdlib [string]s (byte strings); [toLowerCase] and [trim]
      are modelled on the ASCII range.
    - Tool results are [Ok], a typed failure [Fail] (the [E] channel of an
      Effect), a defect [Die] (an exception thrown inside the Effect), or
      [Stuck] (the call never returns). *)

From Stdlib Require Import ZArith QArith Qround Qminmax Lia String Ascii List.
From stdpp Require Import base gmap list.
Import ListNotations.
Open Scope Z_scope.

(* ------------------------------------------------------------------ *)
(** ** JavaScript helpers *)

Module JS.

(** [s.split("\n")]: always at least one element. *)
Fixpoint split_nl (s : string) : list string :=
  match s with
  | EmptyString => [EmptyString]
  | String c rest =>
      if Ascii.eqb c "010"%char then EmptyString :: split_nl rest
      else match split_nl rest with
           | [] => [String c EmptyString]
           | l :: ls => String c l :: ls
           end
  end.

(** [xs.join(sep)]. *)
Definition join (sep : string) (xs : list string) : string :=
  String.concat sep xs.

(** ToIntegerOrInfinity on a finite number: truncation toward zero. *)
Definition trunc (q : Q) : Z :=
  if Qle_bool 0 q then Qfloor q else - Qfloor (- q).

(** Relative index normalisation used by [Array.prototype.slice]. *)
Definition rel_index (len k : Z) : Z :=
  if k <? 0 then Z.max (len + k) 0 else Z.min k len.

(** [xs.slice(start, end)] with integer arguments. *)
Definition slice_z {A} (xs : list A) (start stop : Z) : list A :=
  let len := Z.of_nat (length xs) in
  let s := rel_index len start in
  let e := rel_index len stop in
  firstn (Z.to_nat (e - s)) (skipn (Z.to_nat s) xs).

(** [xs.slice(start, end)] with number arguments. *)
Definition slice {A} (xs : list A) (start stop : Q) : list A :=
  slice_z xs (trunc start) (trunc stop).

(** [Math.ceil(a / b)] for integers with [b > 0]. *)
Definition ceil_div (a b : Z) : Z := - ((- a) / b).

(** [Math.floor] on a number. *)
Definition floor (q : Q) : Z := Qfloor q.

(** *** Binary64 arithmetic

    The result of a JavaScript arithmetic operation is the exact result
    rounded to the nearest double, ties to even.  Overflow to infinity is
    not modelled: the operands met here stay far below [2 ^ 1024]. *)

(** [2 ^ e] for an integer [e] of either sign. *)
Definition pow2 (e : Z) : Q :=
  if 0 <=? e then inject_Z (2 ^ e) else / inject_Z (2 ^ (- e)).

(** For [q > 0], the [e] with [2 ^ (e - 1) <= q < 2 ^ e]. *)
Definition mag (q : Q) : Z :=
  let k := Z.log2 (Qnum q) - Z.log2 (Zpos (Qden q)) in
  if Qle_bool (pow2 k) q then k + 1 else k.

(** Nearest integer, ties to the even one. *)
Definition round_ne (x : Q) : Z :=
  let f := Qfloor x in
  match Qcompare (x - inject_Z f) (1 # 2) with
  | Lt => f
  | Gt => f + 1
  | Eq => if Z.even f then f else f + 1
  end.

(** Rounding of a positive number: 53 significant bits, subnormal
    spacing [2 ^ -1074]. *)
Definition f64_pos (q : Q) : Q :=
  let e := Z.max (mag q - 53) (-1074) in
  inject_Z (round_ne (q * pow2 (- e))) * pow2 e.

(** The double nearest to [q]. *)
Definition f64 (q : Q) : Q :=
  match Qcompare q 0 with
  | Gt => f64_pos q
  | Eq => 0
  | Lt => - f64_pos (- q)
  end.

(** White space removed by [String.prototype.trim] (ASCII part). *)
Definition is_ws (c : ascii) : bool :=
  let n := nat_of_ascii c in
  (Nat.eqb n 32 || Nat.eqb n 9 || Nat.eqb n 10 || Nat.eqb n 11
   || Nat.eqb n 12 || Nat.eqb n 13)%bool.

Fixpoint trim_start (s : string) : string :=
  match s with
  | EmptyString => EmptyString
  | String c rest => if is_ws c then trim_start rest else s
  end.

Fixpoint rev_string (s : string) : string :=
  match s with
  | EmptyString => EmptyString
  | String c rest => rev_string rest ++ String c EmptyString
  end.

(** [s.trim()]. *)
Definition trim (s : string) : string :=
  rev_string (trim_start (rev_string (trim_start s))).

(** [s.toLowerCase()] (ASCII letters). *)
Definition lower_char (c : ascii) : ascii :=
  let n := nat_of_ascii c in
  if (Nat.leb 65 n && Nat.leb n 90)%bool then ascii_of_nat (n + 32) else c.

Fixpoint toLowerCase (s : string) : string :=
  match s with
  | EmptyString => EmptyString
  | String c rest => String (lower_char c) (toLowerCase rest)
  end.

(** [hay.includes(needle)]. *)
Fixpoint includes (hay needle : string) : bool :=
  if String.prefix needle hay then true
  else match hay with
       | EmptyString => false
       | String _ rest => includes rest needle
       end.

(** [s.slice(0, n)] on a string. *)
Definition str_prefix (n : nat) (s : string) : string := substring 0 n s.

(** Truthiness of a string (the empty string is falsy). *)
Definition truthy (s : string) : bool :=
  match s with EmptyString => false | _ => true end.

(** [a || b] on strings. *)
Definition str_or (a b : string) : string := if truthy a then a else b.

End JS.

(* ------------------------------------------------------------------ *)
(** ** Pagination (get_bun_doc / get_effect_doc / get_bun_doc_pages) *)

Module Pagination.

Definition defaultPageSize : Z := 200.

(** [clampPageSize] (copy-package-json.ts):
    [Math.min(Math.max(Math.floor(pageSize ?? defaultPageSize), 1), 500)]. *)
Definition clampPageSize (pageSize : option Q) : Z :=
  Z.min (Z.max (JS.floor (default (inject_Z defaultPageSize) pageSize)) 1) 500.

Record page_result := {
  pr_content : string;
  pr_page : Q;
  pr_totalPages : Z
}.

(** Body of [get_bun_doc] after the cache lookup, with [page = 1] as the
    destructuring default. *)
Definition bun_page (lines : list string) (page : option Q) (pageSize : option Q)
  : page_result :=
  let page := default 1%Q page in
  let size := clampPageSize pageSize in
  let pages := Z.max 1 (JS.ceil_div (Z.of_nat (length lines)) size) in
  let currentPage := Qmin (Qmax page 1) (inject_Z pages) in
  let offset := ((currentPage - 1) * inject_Z size)%Q in
  {| pr_content := JS.join (String "010"%char EmptyString)
                     (JS.slice lines offset (offset + inject_Z size));
     pr_page := currentPage;
     pr_totalPages := pages |}.

(** Body of [get_effect_doc] (ReferenceDocs.ts) after the cache lookup; the
    page size expression is inlined there. *)
Definition effect_page (lines : list string) (page : option Q) (pageSize : option Q)
  : page_result :=
  let page := default 1%Q page in
  let size := Z.min (Z.max (JS.floor (default (inject_Z 200) pageSize)) 1) 500 in
  let pages := Z.max 1 (JS.ceil_div (Z.of_nat (length lines)) size) in
  let currentPage := Qmin (Qmax page 1) (inject_Z pages) in
  let offset := ((currentPage - 1) * inject_Z size)%Q in
  {| pr_content := JS.join (String "010"%char EmptyString)
                     (JS.slice lines offset (offset + inject_Z size));
     pr_page := currentPage;
     pr_totalPages := pages |}.

Record pages_result := {
  ps_content : string;
  ps_startPage : Q;
  ps_endPage : Q;
  ps_totalPages : Z
}.

(** Body of [get_bun_doc_pages] after the cache lookup. *)
Definition bun_pages (lines : list string) (startPage : Q) (endPage : option Q)
    (pageSize : option Q) : pages_result :=
  let size := clampPageSize pageSize in
  let pages := Z.max 1 (JS.ceil_div (Z.of_nat (length lines)) size) in
  let s := Qmin (Qmax startPage 1) (inject_Z pages) in
  let e := Qmin (Qmax (default startPage endPage) s) (inject_Z pages) in
  let startOffset := ((s - 1) * inject_Z size)%Q in
  let endOffset := (e * inject_Z size)%Q in
  {| ps_content := JS.join (String "010"%char EmptyString)
                     (JS.slice lines startOffset endOffset);
     ps_startPage := s;
     ps_endPage := e;
     ps_totalPages := pages |}.

(** [get_bun_doc]'s body with each arithmetic operation rounded to a
    double: [lines.length / size], [currentPage - 1], [(...) * size] and
    [offset + size]. *)
Definition bun_page_f64 (lines : list string) (page : option Q) (pageSize : option Q)
  : page_result :=
  let page := default 1%Q page in
  let size := clampPageSize pageSize in
  let pages := Z.max 1 (Qceiling (JS.f64 (inject_Z (Z.of_nat (length lines)) / inject_Z size))) in
  let currentPage := Qmin (Qmax page 1) (inject_Z pages) in
  let offset := JS.f64 (JS.f64 (currentPage - 1) * inject_Z size) in
  {| pr_content := JS.join (String "010"%char EmptyString)
                     (JS.slice lines offset (JS.f64 (offset + inject_Z size)));
     pr_page := currentPage;
     pr_totalPages := pages |}.

(** [get_bun_doc_pages]'s body with each arithmetic operation rounded to a
    double: [lines.length / size], [s - 1], [(s - 1) * size] and
    [e * size]. *)
Definition bun_pages_f64 (lines : list string) (startPage : Q) (endPage : option Q)
    (pageSize : option Q) : pages_result :=
  let size := clampPageSize pageSize in
  let pages := Z.max 1 (Qceiling (JS.f64 (inject_Z (Z.of_nat (length lines)) / inject_Z size))) in
  let s := Qmin (Qmax startPage 1) (inject_Z pages) in
  let e := Qmin (Qmax (default startPage endPage) s) (inject_Z pages) in
  let startOffset := JS.f64 (JS.f64 (s - 1) * inject_Z size) in
  let endOffset := JS.f64 (e * inject_Z size) in
  {| ps_content := JS.join (String "010"%char EmptyString)
                     (JS.slice lines startOffset endOffset);
     ps_startPage := s;
     ps_endPage := e;
     ps_totalPages := pages |}.

End Pagination.

(* ------------------------------------------------------------------ *)
(** ** Markdown collaborator (src/Markdown.ts) *)

Module Markdown.

Local Open Scope string_scope.
Local Set Warnings "-register-all".

(** The part of a remark syntax tree the heading plugin inspects. *)
Inductive mdnode :=
  | MText (value : string)
  | MHeading (depth : Z) (children : list mdnode)
  | MOther (children : list mdnode).

(** A heading object.  [line] is [None] when the object has no [line]
    property (reading it gives [undefined]). *)
Record heading := {
  h_depth : Z;
  h_text : string;
  h_line : option Z
}.

Record md_file := {
  f_title : string;
  f_description : option string;
  f_headings : list heading;
  f_content : string
}.

(** The plugin's [text]: the [value]s of the direct text children, joined
    with the empty string. *)
Definition heading_text (children : list mdnode) : string :=
  String.concat EmptyString
    (flat_map (fun n => match n with MText v => [v] | _ => [] end) children).

(** The plugin loop over [root.children]: it pushes [{ depth, text }]; no
    [line] property is set. *)
Fixpoint collect_headings (nodes : list mdnode) : list heading :=
  match nodes with
  | [] => []
  | MHeading d cs :: rest =>
      {| h_depth := d; h_text := heading_text cs; h_line := None |}
        :: collect_headings rest
  | _ :: rest => collect_headings rest
  end.

Fixpoint assoc (k : string) (fm : list (string * string)) : option string :=
  match fm with
  | [] => None
  | (k', v) :: rest => if String.eqb k k' then Some v else assoc k rest
  end.

Section Process.
(** The remark pipeline itself (parse, frontmatter, stringify) is the
    external library: its root children, its parsed frontmatter and its
    stringified output. *)
Variable remark_root : string -> list mdnode.
Variable remark_frontmatter : string -> list (string * string).
Variable remark_value : string -> string.

(** [process] *)
Definition process (markdown : string) : md_file :=
  let frontmatter := remark_frontmatter markdown in
  let headings := collect_headings (remark_root markdown) in
  let h2s := JS.join (String "010"%char (String "-" (String " " EmptyString)))
               (map h_text (List.filter (fun h => Z.eqb (h_depth h) 2) headings)) in
  let title :=
    match assoc "title" frontmatter with
    | Some t => Some t
    | None => option_map h_text (List.find (fun h => Z.eqb (h_depth h) 1) headings)
    end in
  let parts := app [assoc "description" frontmatter]
               (if (0 <? Z.of_nat (String.length h2s))%Z
                then [Some ("- " ++ h2s)] else []) in
  let kept := flat_map (fun p => match p with
                                 | Some s => if JS.truthy (JS.trim s) then [s] else []
                                 | None => []
                                 end) parts in
  let description := JS.trim (JS.join (String "010"%char (String "010"%char EmptyString)) kept) in
  {| f_title := default "Untitled" title;
     f_description := if JS.truthy description then Some description else None;
     f_headings := headings;
     f_content := remark_value markdown |}.
End Process.

End Markdown.

(* ------------------------------------------------------------------ *)
(** ** Section locator ([findSectionRange], copy-package-json.ts) *)

Module Section.
Import Markdown.

(** [endLine]: a line number, [Infinity] (initial value, no later heading
    closes the section) or [NaN] ([undefined - 1]). *)
Inductive endline := EndAt (z : Z) | EndInf | EndNaN.

Record range := {
  startLine : option Z;
  endLine : endline
}.

(** The character class of [norm]'s regular expression, by character code:
    backtick, asterisk, underscore, tilde, both square brackets, both
    parentheses, semicolon, colon, period, comma, exclamation mark, question
    mark, double quote, single quote, both angle brackets, hash. *)
Definition punct_codes : list nat :=
  [96; 42; 95; 126; 91; 93; 40; 41; 59; 58; 46; 44; 33; 63; 34; 39; 60; 62; 35]%nat.

Definition is_punct (c : ascii) : bool :=
  existsb (Nat.eqb (nat_of_ascii c)) punct_codes.

Fixpoint strip_punct (s : string) : string :=
  match s with
  | EmptyString => EmptyString
  | String c rest => if is_punct c then strip_punct rest else String c (strip_punct rest)
  end.

(** [norm]: lower-case, delete the characters above, trim. *)
Definition norm (s : string) : string := JS.trim (strip_punct (JS.toLowerCase s)).

(** [h.line === other.line]: [undefined === undefined] holds. *)
Definition line_eqb (a b : option Z) : bool :=
  match a, b with
  | Some x, Some y => Z.eqb x y
  | None, None => true
  | _, _ => false
  end.

(** [hs.findIndex(p)], [-1] when absent. *)
Fixpoint findIndex {A} (p : A -> bool) (xs : list A) : Z :=
  match xs with
  | [] => -1
  | x :: rest => if p x then 0 else
                 let i := findIndex p rest in if i <? 0 then -1 else i + 1
  end.

(** The [for] loop from [origIdx + 1]: first heading with
    [depth <= thisDepth] sets [endLine = line - 1] and breaks. *)
Fixpoint scan_end (thisDepth : Z) (hs : list heading) : endline :=
  match hs with
  | [] => EndInf
  | h :: rest =>
      if h_depth h <=? thisDepth then
        match h_line h with Some l => EndAt (l - 1) | None => EndNaN end
      else scan_end thisDepth rest
  end.

(** [depth ? hs.filter((h) => h.depth === depth) : hs]; [0] is falsy. *)
Definition eligible (hs : list heading) (depth : option Q) : list heading :=
  match depth with
  | Some d => if Qeq_bool d 0 then hs
              else List.filter (fun h => Qeq_bool (inject_Z (h_depth h)) d) hs
  | None => hs
  end.

Definition findSectionRange (hs : list heading) (query : string) (depth : option Q)
  : option range :=
  let q := norm query in
  let filtered := eligible hs depth in
  match List.find (fun h => JS.includes (norm (h_text h)) q) filtered with
  | None => None
  | Some m =>
      let origIdx := findIndex (fun h => line_eqb (h_line h) (h_line m)) hs in
      Some {| startLine := h_line m;
              endLine := scan_end (h_depth m) (skipn (Z.to_nat (origIdx + 1)) hs) |}
  end.

Record section_result := {
  sr_content : string;
  sr_fromLine : option Z;
  sr_toLine : option Z;
  sr_pageStart : option Z;
  sr_pageEnd : option Z;
  sr_totalPages : Z
}.

(** Lines 459-472 of [get_bun_doc_section]: from the located range to the
    payload.  [None] is [NaN]; [slice] reads [NaN] as [0]. *)
Definition section_payload (lines : list string) (size : Z) (m : range) : section_result :=
  let len := Z.of_nat (length lines) in
  let from := option_map (Z.max 1) (startLine m) in
  let to := match endLine m with
            | EndInf => Some len
            | EndAt e => Some (Z.min len e)
            | EndNaN => None
            end in
  let content := JS.join (String "010"%char EmptyString)
                   (JS.slice_z lines (default 0 (option_map (fun f => f - 1) from))
                                     (default 0 to)) in
  let pages := Z.max 1 (JS.ceil_div len size) in
  let pageStart := option_map (fun f => Z.min (Z.max (JS.ceil_div f size) 1) pages) from in
  let pageEnd := match to, pageStart with
                 | Some t, Some ps => Some (Z.min (Z.max (JS.ceil_div t size) ps) pages)
                 | _, _ => None
                 end in
  {| sr_content := content; sr_fromLine := from; sr_toLine := to;
     sr_pageStart := pageStart; sr_pageEnd := pageEnd; sr_totalPages := pages |}.

End Section.

(* ------------------------------------------------------------------ *)
(** ** Document store, content cache and tool handlers *)

Module Store.
Import Markdown Pagination Section.

(** [DocumentEntry].  The content producer is [Effect.succeed(text)] on every
    path that registers an entry, so it is kept as the text.  Entries of the
    Effect corpus have no headings ([e_headings = []]). *)
Record entry := {
  e_id : Z;
  e_title : string;
  e_description : option string;
  e_preview : string;
  e_content : string;
  e_headings : list heading
}.

(** [Omit<DocumentEntry, "id">]. *)
Record doc := {
  d_title : string;
  d_description : option string;
  d_preview : string;
  d_content : string;
  d_headings : list heading
}.

(** [addDoc]: [id = docs.length], then [docs.push(entry)] (the search index
    update is not modelled). *)
Definition addDoc (docs : list entry) (d : doc) : list entry :=
  docs ++ [{| e_id := Z.of_nat (length docs);
              e_title := d_title d;
              e_description := d_description d;
              e_preview := d_preview d;
              e_content := d_content d;
              e_headings := d_headings d |}].

(** [docs[id]]. *)
Definition lookup (docs : list entry) (id : Z) : option entry :=
  if id <? 0 then None else nth_error docs (Z.to_nat id).

(** [makePreview]. *)
Definition makePreview (value : string) : string :=
  fold_left (fun acc line =>
      if (400 <=? Z.of_nat (String.length acc))%Z then acc
      else let trimmed := JS.trim line in
           if negb (JS.truthy trimmed) then acc
           else let next := if JS.truthy acc
                            then (acc ++ String " "%char trimmed)%string
                            else trimmed in
                JS.str_prefix 400 next)
    (JS.split_nl value) EmptyString.

(** Outcome of a tool call: success, typed failure, defect, or a call that
    never returns (it awaits a deferred nobody completes). *)
Inductive result (A : Type) :=
  | Ok (a : A)
  | Fail (msg : string)
  | Die
  | Stuck.
Arguments Ok {A} a.
Arguments Fail {A} msg.
Arguments Die {A}.
Arguments Stuck {A}.

(** An entry of the [Cache]: the lines of a lookup that completed, or the
    entry of a lookup that died before producing an effect.  [Cache.get]
    inserts the entry, with a fresh deferred, before it calls [lookup];
    [docs[id].content] throws while [lookup] is being called, so that
    deferred is never completed. *)
Inductive slot :=
  | Ready (ls : list string)
  | Pending.

Abbreviation cache := (gmap Z slot).

(** [Cache.get(cache, id)] with [lookup: (id) => docs[id].content.pipe(
    Effect.map((content) => content.split("\n")))].  A completed entry is
    returned; a pending entry is awaited for ever.  On a missing entry the
    pending entry is inserted first; the lookup then completes it with the
    split content, or, when [docs[id]] is [undefined], throws a [TypeError]
    (a defect) and leaves it pending.  Capacity (512, least recently used
    first) and time to live (12 hours, counted from completion) only drop
    entries; they are left out. *)
Definition cache_get (docs : list entry) (c : cache) (id : Z)
  : result (list string) * cache :=
  match c !! id with
  | Some (Ready ls) => (Ok ls, c)
  | Some Pending => (Stuck, c)
  | None =>
      match lookup docs id with
      | Some e => let ls := JS.split_nl (e_content e) in (Ok ls, <[id := Ready ls]> c)
      | None => (Die, <[id := Pending]> c)
      end
  end.

Definition bind_lines {A} (r : result (list string)) (k : list string -> result A)
  : result A :=
  match r with
  | Ok ls => k ls
  | Fail m => Fail m
  | Die => Die
  | Stuck => Stuck
  end.

(** [get_bun_doc].  Its [Effect.catch] logs a failure and fails again with
    the same cause; defects pass through. *)
Definition get_bun_doc (docs : list entry) (c : cache) (documentId : Z)
    (page pageSize : option Q) : result page_result * cache :=
  let '(r, c') := cache_get docs c documentId in
  (bind_lines r (fun lines => Ok (bun_page lines page pageSize)), c').

(** [get_effect_doc] (ReferenceDocs.ts). *)
Definition get_effect_doc (docs : list entry) (c : cache) (documentId : Z)
    (page pageSize : option Q) : result page_result * cache :=
  let '(r, c') := cache_get docs c documentId in
  (bind_lines r (fun lines => Ok (effect_page lines page pageSize)), c').

(** [get_bun_doc_pages]. *)
Definition get_bun_doc_pages (docs : list entry) (c : cache) (documentId : Z)
    (startPage : Q) (endPage pageSize : option Q) : result pages_result * cache :=
  let '(r, c') := cache_get docs c documentId in
  (bind_lines r (fun lines => Ok (bun_pages lines startPage endPage pageSize)), c').

(** [get_bun_doc_section]. *)
Definition get_bun_doc_section (docs : list entry) (c : cache) (documentId : Z)
    (hd : string) (depth pageSize : option Q) : result section_result * cache :=
  let size := clampPageSize pageSize in
  match lookup docs documentId with
  | None => (Fail "Document not found"%string, c)
  | Some d =>
      let '(r, c') := cache_get docs c documentId in
      (bind_lines r (fun lines =>
         match findSectionRange (e_headings d) hd depth with
         | None => Fail "Section not found"%string
         | Some m => Ok (section_payload lines size m)
         end), c')
  end.

End Store.

(* ------------------------------------------------------------------ *)
(** ** Loaders *)

Module Loader.
Import Markdown Store.
Local Open Scope string_scope.

Section Loaders.
(** The remark pipeline (see [Markdown.process]). *)
Variable remark_root : string -> list mdnode.
Variable remark_frontmatter : string -> list (string * string).
Variable remark_value : string -> string.
(** [tryFetchText(url)] on the retrying client: the body, or [None] when
    the request still fails. *)
Variable tryFetchText : string -> option string.
(** [path_.basename]. *)
Variable basename : string -> string.

(** The [addDoc] argument of the Bun [loadDocs] for the page [loc] and
    its processed markdown [file]. *)
Definition bun_doc (loc : string) (file : md_file) : doc :=
  let titleFromPath := basename loc in
  {| d_title := JS.str_or (f_title file) titleFromPath;
     d_description := f_description file;
     d_preview :=
       JS.str_or (makePreview (f_content file))
         (match f_description file with
          | Some ds => JS.str_or ds titleFromPath
          | None => titleFromPath
          end);
     d_content := f_content file;
     d_headings := f_headings file |}.

(** One iteration of the [Effect.forEach] body of the Bun [loadDocs]:
    [None] when [raw] is [null] (the fetch failed and was caught). *)
Definition bun_ingest (loc : string) : option doc :=
  match tryFetchText (loc ++ ".md") with
  | None => None
  | Some raw => Some (bun_doc loc (process remark_root remark_frontmatter remark_value raw))
  end.

(** The URLs kept from the sitemap. *)
Definition bun_urls (locs : list string) : list string :=
  List.filter (fun u => String.prefix "https://bun.com/docs/" u) locs.

(** The Bun [loadDocs], run in one order of the bounded-concurrency
    [forEach] (entries are registered in completion order). *)
Definition bun_loadDocs (docs : list entry) (locs : list string) : list entry :=
  fold_left (fun acc loc => match bun_ingest loc with
                            | Some d => addDoc acc d
                            | None => acc
                            end)
    (bun_urls locs) docs.

(** Effect corpus: [client.get(url)] then [response.text] (no retry). *)
Variable fetchRaw : string -> option string.

(** [fallbackBody(kind, name)]. *)
Definition fallbackBody (kind name : string) : string :=
  "# " ++ name ++ String "010"%char (String "010"%char EmptyString) ++
  "This " ++ kind ++ " could not be loaded right now. Please try again later.".

(** [fetchText(url, kind, name)]: the body, and the diagnostics logged. *)
Definition fetchText (url kind name : string) : string * list string :=
  match fetchRaw url with
  | Some body => (body, [])
  | None => (fallbackBody kind name, ["Failed to fetch documentation"])
  end.

(** An element of [guides] / [readmes]; [se_name] is [entry.name] for a
    guide and [entry.package] for a readme. *)
Record static_entry := {
  se_url : string;
  se_name : string;
  se_title : string;
  se_description : option string
}.

Definition static_doc (e : static_entry) (body : string) : doc :=
  {| d_title := se_title e;
     d_description := se_description e;
     d_preview := JS.str_or (makePreview body) (default EmptyString (se_description e));
     d_content := body;
     d_headings := [] |}.

(** [addStaticDocs(kind)]: the store and the log. *)
Definition addStaticDocs (kind : string) (entries : list static_entry)
    (st : list entry * list string) : list entry * list string :=
  fold_left (fun '(docs, logs) e =>
      let '(body, l) := fetchText (se_url e) kind (se_name e) in
      (addDoc docs (static_doc e body), app logs l))
    entries st.
End Loaders.

(** *** A run of the Bun [loadDocs]

    [bun_loadDocs] above follows the [forEach] body when every fetch ends
    and every page processes.  The run below also follows the effects:
    the client [tryFetchText] uses is built with [HttpClient.filterStatusOk]
    and [HttpClient.retry(Schedule.spaced(3 seconds))], which retries a
    failed request (a transport error or a status outside 2xx) without limit;
    [markdown.process] runs [processor.process] under [Effect.promise] (a
    rejection is a defect) and calls [part.trim()] on the frontmatter
    [description] (a truthy value that is not a string throws, a defect);
    defects are not caught by the [Effect.catch] around the fetch, and end
    the [forEach], and with it the forked [loadDocs]. *)

(** The outcome of [tryFetchText(mdUrl)]: the body; a failure of
    [response.text] after a successful request (caught, [raw = null]); or a
    request that keeps failing, retried every 3 seconds for ever. *)
Inductive md_fetch :=
  | MdBody (raw : string)
  | MdUnreadable
  | MdRetriedForever.

(** A parsed frontmatter value: a string, or another YAML value (number,
    boolean, date, list, map, null) with its truthiness. *)
Inductive fm_value :=
  | FmString (s : string)
  | FmOther (truthy : bool).

(** How a run ends: every task done; some task never ends (the run waits
    for ever); a defect ended it. *)
Inductive load_end :=
  | Completed
  | Waiting
  | Aborted.

(** The string-valued part of a frontmatter, as [process] reads it for
    [title] and [description].  A non-string [title] is not modelled:
    it is read as absent here. *)
Fixpoint fm_strings (fm : list (string * fm_value)) : list (string * string) :=
  match fm with
  | [] => []
  | (k, FmString v) :: rest => (k, v) :: fm_strings rest
  | (_, FmOther _) :: rest => fm_strings rest
  end.

Fixpoint fm_assoc (k : string) (fm : list (string * fm_value)) : option fm_value :=
  match fm with
  | [] => None
  | (k', v) :: rest => if String.eqb k k' then Some v else fm_assoc k rest
  end.

(** [Boolean(part && part.trim().length > 0)] on [frontmatter.description]
    throws when the value is truthy and not a string. *)
Definition description_throws (fm : list (string * fm_value)) : bool :=
  match fm_assoc "description" fm with
  | Some (FmOther true) => true
  | _ => false
  end.


Section BunRun.
Variable remark_root : string -> list mdnode.
Variable remark_fm : string -> list (string * fm_value).
Variable remark_value : string -> string.
(** [processor.process(markdown)] rejects. *)
Variable remark_rejects : string -> bool.
Variable fetchMd : string -> md_fetch.
Variable basename : string -> string.

(** [markdown.process(raw)]: the processed file, or [None] for a defect. *)
Definition process_effect (raw : string) : option md_file :=
  if remark_rejects raw then None
  else if description_throws (remark_fm raw) then None
  else Some (process remark_root (fun m => fm_strings (remark_fm m)) remark_value raw).

(** The [forEach] over [urls] with [concurrency: 10], run in one order:
    [held] tasks are retrying for ever and keep their worker; when all ten
    workers are held no further task starts. *)
Fixpoint bun_run (docs : list entry) (held : nat) (urls : list string)
  : list entry * load_end :=
  match urls with
  | [] => (docs, if Nat.eqb held 0 then Completed else Waiting)
  | loc :: rest =>
      if Nat.leb 10 held then (docs, Waiting)
      else match fetchMd (loc ++ ".md") with
           | MdRetriedForever => bun_run docs (S held) rest
           | MdUnreadable => bun_run docs held rest
           | MdBody raw =>
               match process_effect raw with
               | None => (docs, Aborted)
               | Some file => bun_run (addDoc docs (bun_doc basename loc file)) held rest
               end
           end
  end.

(** The Bun [loadDocs] from the sitemap's [<loc>]s. *)
Definition bun_loadDocs_run (docs : list entry) (locs : list string) : list entry * load_end :=
  bun_run docs 0 (bun_urls locs).

End BunRun.

End Loader.

(* ------------------------------------------------------------------ *)
(** ** Effect reference, website and search entries (src/ReferenceDocs.ts) *)

Module Reference.
Import Markdown Store.
Local Open Scope string_scope.

(** The fields of a decoded [DocEntry] that its getters and the loader
    read; [de_module] is [module.name]. *)
Record doc_entry := {
  de_tag : string;
  de_module : string;
  de_project : string;
  de_name : string;
  de_description : option string;
  de_examples : list string;
  de_signature : option string
}.

(** The tail of the extension pattern: one or more characters, none of them
    a slash or a period, up to the end of the string. *)
Fixpoint ext_tail (s : string) : bool :=
  match s with
  | EmptyString => false
  | String c rest =>
      (negb (Ascii.eqb c "/"%char || Ascii.eqb c "."%char) &&
       match rest with EmptyString => true | _ => ext_tail rest end)%bool
  end.

(** [module.name.replace(/\.[^/.]+$/, ...)] with the empty replacement: the
    leftmost match (a period followed by such a tail) is removed. *)
Fixpoint strip_ext (s : string) : string :=
  match s with
  | EmptyString => EmptyString
  | String c rest =>
      if (Ascii.eqb c "."%char && ext_tail rest)%bool then EmptyString
      else String c (strip_ext rest)
  end.

(** [get moduleTitle]. *)
Definition moduleTitle (e : doc_entry) : string := strip_ext (de_module e).

(** [get nameWithModule]. *)
Definition nameWithModule (e : doc_entry) : string := moduleTitle e ++ "." ++ de_name e.

Definition nl : string := String "010"%char EmptyString.

(** A fenced TypeScript block preceded by a blank line. *)
Definition fence (code : string) : string := nl ++ nl ++ "```ts" ++ nl ++ code ++ nl ++ "```".

Section Render.
(** [prettify]: Prettier's output, or the code itself when formatting fails
    ([Effect.orElseSucceed]), so it never fails. *)
Variable prettify : string -> string.

(** [get asMarkdown]. *)
Definition asMarkdown (e : doc_entry) : string :=
  let description := default EmptyString (de_description e) in
  let description := match de_signature e with
                     | Some sig => description ++ fence (prettify sig)
                     | None => description
                     end in
  let description := if (0 <? length (de_examples e))%nat
                     then fold_left (fun d ex => d ++ fence ex) (de_examples e)
                            (description ++ nl ++ nl ++ "**Example**")
                     else description in
  "# " ++ de_project e ++ "/" ++ nameWithModule e ++ nl ++ nl ++ description.

(** The document registered for one reference entry.  [asMarkdown] cannot
    fail, so the fallback body of its [Effect.catch] is never used. *)
Definition reference_doc (e : doc_entry) : doc :=
  let description := de_description e in
  let preview := match description with
                 | Some ds => ds
                 | None => de_project e ++ " " ++ moduleTitle e ++ " " ++ de_name e
                 end in
  {| d_title := nameWithModule e;
     d_description := Some (default EmptyString description);
     d_preview := preview;
     d_content := asMarkdown e;
     d_headings := [] |}.

(** [loadDocs(url)]: the decoded entries, or [None] when the request or the
    decoding fails (logged, then read as the empty array). *)
Variable fetchEntries : string -> option (list doc_entry).

(** The reference documentation: the entries of every URL, in order, each
    registered with [addDoc]. *)
Definition loadReferenceDocs (docUrls : list string) (docs : list entry) : list entry :=
  fold_left (fun acc e => addDoc acc (reference_doc e))
    (flat_map (fun u => default [] (fetchEntries u)) docUrls) docs.
End Render.

(** [dirname.replace("-", " ")]: a string pattern replaces its first
    occurrence only. *)
Fixpoint replace_first_hyphen (s : string) : string :=
  match s with
  | EmptyString => EmptyString
  | String c rest =>
      if Ascii.eqb c "-"%char then String " "%char rest else String c (replace_first_hyphen rest)
  end.

(** The title of a website page, from the name of its directory. *)
Definition website_title (dirname fileTitle : string) : string :=
  if String.eqb dirname "docs" then fileTitle
  else replace_first_hyphen dirname ++ " - " ++ fileTitle.

(** The document registered for a processed website page; its preview is
    [(makePreview(file.content) || file.description) ?? title]. *)
Definition website_doc (dirname : string) (file : md_file) : doc :=
  let title := website_title dirname (f_title file) in
  let p := makePreview (f_content file) in
  {| d_title := title;
     d_description := f_description file;
     d_preview := if JS.truthy p then p
                  else match f_description file with Some ds => ds | None => title end;
     d_content := f_content file;
     d_headings := [] |}.

(** An element of the [results] payload of [bun_docs_search] and
    [effect_doc_search]: [description ?? preview]. *)
Record search_hit := {
  hit_documentId : Z;
  hit_title : string;
  hit_description : string
}.

Definition to_hit (e : entry) : search_hit :=
  {| hit_documentId := e_id e;
     hit_title := e_title e;
     hit_description := default (e_preview e) (e_description e) |}.

End Reference.

(* ================================================================== *)
(** * Properties *)

Import Markdown Section Store Pagination Loader Reference.

(** The page size the spec describes: 200 when absent, otherwise the floor
    of the request clamped into [1, 500]. *)
Definition spec_page_size (pageSize : option Q) : Z :=
  match pageSize with
  | None => 200
  | Some p => Z.max 1 (Z.min 500 (Qfloor p))
  end.

Lemma clampPageSize_spec (pageSize : option Q) :
  clampPageSize pageSize = spec_page_size pageSize.
Proof.
  destruct pageSize as [p|]; unfold clampPageSize, spec_page_size, JS.floor; simpl.
  - lia.
  - reflexivity.
Qed.

Lemma clampPageSize_range (pageSize : option Q) :
  1 <= clampPageSize pageSize <= 500.
Proof. unfold clampPageSize. lia. Qed.

Lemma ceil_div_Qceiling (a b : Z) :
  0 < b -> JS.ceil_div a b = Qceiling (inject_Z a / inject_Z b).
Proof.
  intros Hb. destruct b as [|p|p]; try lia.
  unfold JS.ceil_div, Qceiling, Qfloor, inject_Z, Qdiv, Qinv, Qmult, Qopp; simpl.
  rewrite Z.mul_1_r. reflexivity.
Qed.

Lemma ceil_div_mul (a b : Z) : 0 < b -> a <= JS.ceil_div a b * b.
Proof.
  intros Hb. unfold JS.ceil_div.
  assert (H := Z.mul_div_le (- a) b Hb). lia.
Qed.

Lemma ceil_div_le (a b : Z) : 0 <= a -> 1 <= b -> JS.ceil_div a b <= a.
Proof.
  intros Ha Hb. unfold JS.ceil_div.
  assert (Hd := Z.div_mod (- a) b ltac:(lia)).
  assert (Hm := Z.mod_pos_bound (- a) b ltac:(lia)).
  nia.
Qed.

Lemma ceil_div_lower (a b : Z) : 0 < b -> (JS.ceil_div a b - 1) * b < a.
Proof.
  intros Hb. unfold JS.ceil_div.
  assert (Hd := Z.div_mod (- a) b ltac:(lia)).
  assert (Hm := Z.mod_pos_bound (- a) b Hb). nia.
Qed.

Lemma ceil_div_mono (a a' b : Z) : 0 < b -> a <= a' -> JS.ceil_div a b <= JS.ceil_div a' b.
Proof.
  intros Hb Ha. unfold JS.ceil_div.
  assert ((- a') / b <= (- a) / b) by (apply Z.div_le_mono; lia). lia.
Qed.

Lemma ceil_div_pos (a b : Z) : 0 < b -> 1 <= a -> 1 <= JS.ceil_div a b.
Proof.
  intros Hb Ha. assert (H := ceil_div_mul a b Hb). nia.
Qed.

(** Clamping a number into [[1, pages]] with [Math.min(Math.max(x, 1), pages)]. *)
Lemma clamp_page_bounds (x : Q) (pages : Z) :
  1 <= pages ->
  (1 <= Qmin (Qmax x 1) (inject_Z pages))%Q /\
  (Qmin (Qmax x 1) (inject_Z pages) <= inject_Z pages)%Q.
Proof.
  intros Hp. assert (Hp' : (1 <= inject_Z pages)%Q)
    by (change 1%Q with (inject_Z 1); rewrite <- Zle_Qle; exact Hp).
  split.
  - apply Q.min_glb; [apply Q.le_max_r | exact Hp'].
  - apply Q.le_min_r.
Qed.

(** [Math.max(1, Math.ceil(len / size))] is at least [1]. *)
Lemma bun_page_fields (lines : list string) (page pageSize : option Q) :
  pr_totalPages (bun_page lines page pageSize)
    = Z.max 1 (JS.ceil_div (Z.of_nat (length lines)) (clampPageSize pageSize)) /\
  pr_page (bun_page lines page pageSize)
    = Qmin (Qmax (default 1%Q page) 1)
           (inject_Z (Z.max 1 (JS.ceil_div (Z.of_nat (length lines)) (clampPageSize pageSize)))).
Proof. split; reflexivity. Qed.

(** C10 (pure part): the two pagination bodies are the same function. *)
Lemma bun_page_effect_page (lines : list string) (page pageSize : option Q) :
  bun_page lines page pageSize = effect_page lines page pageSize.
Proof. reflexivity. Qed.

(** ** C3
    For every cached line sequence and every requested [page] and
    [pageSize] (absent, negative, zero, fractional or large), [get_bun_doc]
    and [get_effect_doc] use the page size [floor(pageSize)] clamped into
    [[1, 500]] (200 when absent), return
    [totalPages = max(1, ceil(totalLines / size)) >= 1], and a page with
    [1 <= page <= totalPages]. *)
Theorem paginate_totalPages_and_page_bounds (lines : list string) (page pageSize : option Q) :
  let size := spec_page_size pageSize in
  let total := Z.max 1 (Qceiling (inject_Z (Z.of_nat (length lines)) / inject_Z size)) in
  (1 <= size <= 500) /\
  (pr_totalPages (bun_page lines page pageSize) = total /\
   1 <= total /\
   (1 <= pr_page (bun_page lines page pageSize))%Q /\
   (pr_page (bun_page lines page pageSize) <= inject_Z total)%Q) /\
  (pr_totalPages (effect_page lines page pageSize) = total /\
   (1 <= pr_page (effect_page lines page pageSize))%Q /\
   (pr_page (effect_page lines page pageSize) <= inject_Z total)%Q).
Proof.
  intros size total.
  assert (Hsz : clampPageSize pageSize = size) by apply clampPageSize_spec.
  assert (Hr := clampPageSize_range pageSize).
  assert (Htot : Z.max 1 (JS.ceil_div (Z.of_nat (length lines)) (clampPageSize pageSize)) = total).
  { unfold total. rewrite Hsz, ceil_div_Qceiling by lia. reflexivity. }
  assert (H1 : 1 <= total) by (unfold total; lia).
  change (effect_page lines page pageSize) with (bun_page lines page pageSize).
  destruct (bun_page_fields lines page pageSize) as [Ht Hp].
  rewrite Htot in Ht, Hp. rewrite Ht, Hp.
  destruct (clamp_page_bounds (default 1%Q page) total H1) as [Hlo Hhi].
  repeat split; try lia; assumption.
Qed.

(** ** C10
    For every store, cache state, document id, page and page size,
    [get_effect_doc] and [get_bun_doc] produce the same outcome and the same
    cache state. *)
Theorem get_effect_doc_eq_get_bun_doc (docs : list entry) (c : cache) (documentId : Z)
    (page pageSize : option Q) :
  get_effect_doc docs c documentId page pageSize = get_bun_doc docs c documentId page pageSize.
Proof.
  unfold get_effect_doc, get_bun_doc.
  destruct (cache_get docs c documentId) as [r c'].
  destruct r; reflexivity.
Qed.

(* ------------------------------------------------------------------ *)
(** ** Splitting and joining lines *)

Lemma split_nl_not_nil (s : string) : JS.split_nl s <> [].
Proof.
  destruct s as [|c rest]; simpl; [discriminate|].
  destruct (Ascii.eqb c "010"%char); [discriminate|].
  destruct (JS.split_nl rest); discriminate.
Qed.

Lemma concat_cons_char (sep : string) (c : ascii) (l : string) (ls : list string) :
  String.concat sep (String c l :: ls) = String c (String.concat sep (l :: ls)).
Proof. destruct ls; reflexivity. Qed.

(** Joining the lines of [s.split("\n")] with ["\n"] gives [s] back. *)
Lemma join_split_nl (s : string) :
  JS.join (String "010"%char EmptyString) (JS.split_nl s) = s.
Proof.
  unfold JS.join. induction s as [|c rest IH]; [reflexivity|].
  simpl. destruct (Ascii.eqb c "010"%char) eqn:Hc.
  - apply Ascii.eqb_eq in Hc. subst c.
    destruct (JS.split_nl rest) as [|l ls] eqn:Hs; [exfalso; exact (split_nl_not_nil rest Hs)|].
    change (String.concat (String "010"%char EmptyString) (EmptyString :: l :: ls))
      with (EmptyString ++ String "010"%char EmptyString
            ++ String.concat (String "010"%char EmptyString) (l :: ls))%string.
    rewrite IH. reflexivity.
  - destruct (JS.split_nl rest) as [|l ls] eqn:Hs; [exfalso; exact (split_nl_not_nil rest Hs)|].
    rewrite concat_cons_char, IH. reflexivity.
Qed.


(* ------------------------------------------------------------------ *)
(** ** Store and cache *)

(** Every entry of the cache is a completed lookup of the entry with that
    id: its split content.  A cache reaches any other state only through a
    call on an id that had no entry. *)
Definition cache_coherent (docs : list entry) (c : cache) : Prop :=
  forall id sl, c !! id = Some sl ->
    exists e, lookup docs id = Some e /\ sl = Ready (JS.split_nl (e_content e)).

Lemma lookup_addDoc_old (docs : list entry) (d : doc) (id : Z) :
  id < Z.of_nat (length docs) -> lookup (addDoc docs d) id = lookup docs id.
Proof.
  intros Hid. unfold lookup, addDoc. destruct (id <? 0) eqn:Hn; [reflexivity|].
  apply Z.ltb_ge in Hn. apply nth_error_app1. lia.
Qed.

Lemma lookup_beyond (docs : list entry) (id : Z) :
  Z.of_nat (length docs) <= id -> lookup docs id = None.
Proof.
  intros Hid. unfold lookup. destruct (id <? 0) eqn:Hn; [reflexivity|].
  apply Z.ltb_ge in Hn. apply nth_error_None. lia.
Qed.


Lemma cache_coherent_addDoc (docs : list entry) (c : cache) (d : doc) :
  cache_coherent docs c -> cache_coherent (addDoc docs d) c.
Proof.
  intros Hc id sl Hl. destruct (Hc id sl Hl) as (e & He & ->).
  exists e. split; [|reflexivity].
  rewrite lookup_addDoc_old; [exact He|].
  unfold lookup in He. destruct (id <? 0) eqn:Hneg; [discriminate|].
  apply Z.ltb_ge in Hneg.
  assert (Z.to_nat id < length docs)%nat by (apply nth_error_Some; congruence). lia.
Qed.

Lemma cache_coherent_get (docs : list entry) (c : cache) (id : Z) :
  cache_coherent docs c ->
  match cache_get docs c id with
  | (Ok ls, c') => cache_coherent docs c' /\
      exists e, lookup docs id = Some e /\ ls = JS.split_nl (e_content e)
  | (Fail _, _) => False
  | (Die, c') => c' = <[id := Pending]> c /\ lookup docs id = None /\ c !! id = None
  | (Stuck, _) => False
  end.
Proof.
  intros Hc. unfold cache_get.
  destruct (c !! id) as [sl|] eqn:Hl.
  - destruct (Hc id sl Hl) as (e & He & ->).
    split; [exact Hc | exists e; split; [exact He | reflexivity]].
  - destruct (lookup docs id) as [e|] eqn:He; [|repeat split; assumption].
    split; [|exists e; split; reflexivity].
    intros id' sl' Hl'. destruct (decide (id' = id)) as [->|Hne].
    + rewrite lookup_insert_eq in Hl'. injection Hl' as <-. exists e. split; [exact He | reflexivity].
    + rewrite lookup_insert_ne in Hl' by congruence. exact (Hc id' sl' Hl').
Qed.

(** A coherent cache has no entry for an id past the end of the store. *)
Lemma cache_coherent_beyond (docs : list entry) (c : cache) (id : Z) :
  cache_coherent docs c -> Z.of_nat (length docs) <= id -> c !! id = None.
Proof.
  intros Hc Hid. destruct (c !! id) as [sl|] eqn:Hl; [|reflexivity].
  destruct (Hc _ _ Hl) as (e & He & _). rewrite lookup_beyond in He by exact Hid. discriminate.
Qed.


(* ------------------------------------------------------------------ *)
(** ** Truncation of offsets *)

Lemma trunc_comp (x y : Q) : (x == y)%Q -> JS.trunc x = JS.trunc y.
Proof.
  intros H. unfold JS.trunc.
  destruct (Qle_bool 0 x) eqn:Hx, (Qle_bool 0 y) eqn:Hy.
  - apply Qfloor_comp. exact H.
  - apply Qle_bool_iff in Hx. rewrite H in Hx. apply Qle_bool_iff in Hx. congruence.
  - apply Qle_bool_iff in Hy. rewrite <- H in Hy. apply Qle_bool_iff in Hy. congruence.
  - f_equal. apply Qfloor_comp. rewrite H. reflexivity.
Qed.

Lemma trunc_Z (z : Z) : 0 <= z -> JS.trunc (inject_Z z) = z.
Proof.
  intros Hz. unfold JS.trunc.
  replace (Qle_bool 0 (inject_Z z)) with true.
  - apply Qfloor_Z.
  - symmetry. apply Qle_bool_iff. change 0%Q with (inject_Z 0). rewrite <- Zle_Qle. exact Hz.
Qed.

(* ------------------------------------------------------------------ *)
(** ** Binary64 rounding *)

Lemma pow2_nonneg (e : Z) : 0 <= e -> JS.pow2 e = inject_Z (2 ^ e).
Proof. intros H. unfold JS.pow2. destruct (Z.leb_spec 0 e); [reflexivity | lia]. Qed.

Lemma pow2_neg (n : Z) : 0 <= n -> (JS.pow2 (- n) == / inject_Z (2 ^ n))%Q.
Proof.
  intros H. unfold JS.pow2. destruct (Z.leb_spec 0 (- n)).
  - assert (n = 0) by lia. subst n. reflexivity.
  - rewrite Z.opp_involutive. reflexivity.
Qed.

Lemma inv_inject_pos (y : Z) : 0 < y -> (/ inject_Z y == 1 # Z.to_pos y)%Q.
Proof. intros H. destruct y as [|p|p]; try lia. reflexivity. Qed.

Lemma pow2_le_mono (i j : Z) : 0 <= i <= j -> (JS.pow2 i <= JS.pow2 j)%Q.
Proof.
  intros H. rewrite !pow2_nonneg by lia. rewrite <- Zle_Qle.
  apply Z.pow_le_mono_r; lia.
Qed.

(** [mag q - 1] is the exponent of the leading binary digit of [q]. *)
Lemma mag_lower (q : Q) : 0 < Qnum q -> (JS.pow2 (JS.mag q - 1) <= q)%Q.
Proof.
  intros Hq. unfold JS.mag.
  set (k := Z.log2 (Qnum q) - Z.log2 (Zpos (Qden q))).
  destruct (Qle_bool (JS.pow2 k) q) eqn:Hb.
  - replace (k + 1 - 1) with k by lia. apply Qle_bool_iff. exact Hb.
  - destruct q as [n d]. cbn [Qnum Qden] in *.
    destruct (Z.log2_spec n Hq) as [Hn1 Hn2].
    destruct (Z.log2_spec (Zpos d) ltac:(lia)) as [Hd1 Hd2].
    assert (Ha := Z.log2_nonneg n). assert (Hb' := Z.log2_nonneg (Zpos d)).
    set (a := Z.log2 n) in *. set (b := Z.log2 (Zpos d)) in *. unfold Z.succ in *.
    unfold k. destruct (Z.leb_spec 0 (a - b - 1)) as [Hk|Hk].
    + rewrite pow2_nonneg by exact Hk.
      unfold Qle. cbn [Qnum Qden inject_Z]. rewrite Z.mul_1_r.
      assert (E : 2 ^ a = 2 ^ (a - b - 1) * 2 ^ (b + 1))
        by (rewrite <- Z.pow_add_r by lia; f_equal; lia).
      assert (0 < 2 ^ (a - b - 1)) by (apply Z.pow_pos_nonneg; lia).
      nia.
    + replace (a - b - 1) with (- (b + 1 - a)) by lia.
      rewrite pow2_neg by lia. rewrite inv_inject_pos by (apply Z.pow_pos_nonneg; lia).
      unfold Qle. cbn [Qnum Qden inject_Z]. rewrite Z2Pos.id by (apply Z.pow_pos_nonneg; lia).
      assert (E : 2 ^ (b + 1) = 2 ^ a * 2 ^ (b + 1 - a))
        by (rewrite <- Z.pow_add_r by lia; f_equal; lia).
      assert (0 < 2 ^ (b + 1 - a)) by (apply Z.pow_pos_nonneg; lia).
      nia.
Qed.

Lemma round_ne_comp (x y : Q) : (x == y)%Q -> JS.round_ne x = JS.round_ne y.
Proof.
  intros H. unfold JS.round_ne. rewrite (Qfloor_comp x y H).
  assert (H' : (x - inject_Z (Qfloor y) == y - inject_Z (Qfloor y))%Q) by (rewrite H; reflexivity).
  rewrite (Qcompare_comp _ _ H' (1 # 2) (1 # 2) (Qeq_refl _)). reflexivity.
Qed.

(** Rounding [u / v] to an integer moves it by at most one half. *)
Lemma round_ne_bounds (u : Z) (v : positive) :
  2 * u - Zpos v <= 2 * Zpos v * JS.round_ne (u # v) <= 2 * u + Zpos v.
Proof.
  unfold JS.round_ne, Qfloor. cbn [Qnum Qden].
  assert (Hd := Z.div_mod u (Zpos v) ltac:(lia)).
  assert (Hm := Z.mod_pos_bound u (Zpos v) ltac:(lia)).
  set (f := u / Zpos v) in *. set (r := u mod Zpos v) in *.
  unfold Qcompare, Qminus, Qplus, Qopp, inject_Z. cbn [Qnum Qden].
  rewrite !Pos2Z.inj_mul.
  destruct (Z.compare_spec ((u * 1 + - f * Zpos v) * 2) (1 * (Zpos v * 1))) as [E|E|E].
  - destruct (Z.even f); nia.
  - nia.
  - nia.
Qed.

(** Below [2 ^ K], [K <= 53], a positive number is rounded on the grid of
    step [2 ^ - N] for some [N >= 53 - K]. *)
Lemma f64_pos_shape (q : Q) (K : Z) :
  0 < Qnum q -> 0 <= K <= 53 -> (q < inject_Z (2 ^ K))%Q ->
  exists N, 53 - K <= N /\
    (JS.f64_pos q == inject_Z (JS.round_ne (q * inject_Z (2 ^ N))) / inject_Z (2 ^ N))%Q.
Proof.
  intros Hq HK Hlt.
  assert (Hm : JS.mag q <= K).
  { destruct (Z.le_gt_cases (JS.mag q) K) as [H|H]; [exact H|].
    exfalso. assert (L := mag_lower q Hq).
    assert (L2 := pow2_le_mono K (JS.mag q - 1) ltac:(lia)).
    rewrite (pow2_nonneg K (proj1 HK)) in L2.
    apply (Qlt_irrefl q). eapply Qlt_le_trans; [exact Hlt|].
    eapply Qle_trans; [exact L2|exact L]. }
  exists (- Z.max (JS.mag q - 53) (-1074)). split; [lia|].
  unfold JS.f64_pos.
  set (e := Z.max (JS.mag q - 53) (-1074)).
  assert (He : e <= 0) by lia.
  rewrite (pow2_nonneg (- e)) by lia.
  rewrite <- (Z.opp_involutive e) at 2. rewrite pow2_neg by lia.
  reflexivity.
Qed.

(** Integers below [2 ^ 53] are doubles: rounding leaves them alone. *)
Lemma f64_exact_int (x : Q) (z : Z) :
  (x == inject_Z z)%Q -> 0 <= z < 2 ^ 53 -> (JS.f64 x == inject_Z z)%Q.
Proof.
  intros Hx Hz. unfold JS.f64.
  destruct (Z.eq_dec z 0) as [->|Hnz].
  - rewrite (Qcompare_comp x (inject_Z 0) Hx 0%Q 0%Q (Qeq_refl _)). reflexivity.
  - rewrite (Qcompare_comp x (inject_Z z) Hx 0%Q 0%Q (Qeq_refl _)).
    replace (Qcompare (inject_Z z) 0) with Gt
      by (symmetry; apply Qgt_alt; unfold Qlt; cbn; lia).
    assert (Hn : 0 < Qnum x) by (unfold Qeq in Hx; cbn in Hx; nia).
    destruct (f64_pos_shape x 53) as [N [HN E]];
      [exact Hn | lia | rewrite Hx, <- Zlt_Qlt; lia |].
    rewrite E.
    assert (P : 0 < 2 ^ N) by (apply Z.pow_pos_nonneg; lia).
    rewrite (round_ne_comp _ (z * 2 ^ N # 1)) by (rewrite Hx; unfold Qeq; cbn; lia).
    assert (R : JS.round_ne (z * 2 ^ N # 1) = z * 2 ^ N).
    { pose proof (round_ne_bounds (z * 2 ^ N) 1) as B. lia. }
    rewrite R. rewrite inject_Z_mult. field.
    intro C. unfold Qeq in C. cbn in C. lia.
Qed.

(** [Math.ceil(len / size)] computed on doubles is the exact ceiling when
    [len < 2 ^ 32] and [1 <= size <= 500]: the quotient has at most 32 bits
    before the point, so its rounding error is below [2 ^ -21]. *)
Lemma f64_ceil_div (a b : Z) :
  0 <= a < 2 ^ 32 -> 1 <= b <= 500 ->
  Qceiling (JS.f64 (inject_Z a / inject_Z b)) = JS.ceil_div a b.
Proof.
  intros Ha Hb. destruct b as [|p|p]; try lia.
  assert (Eq : (inject_Z a / inject_Z (Zpos p))%Q = (a * 1 # p)) by reflexivity.
  rewrite Eq, Z.mul_1_r.
  destruct (Z.eq_dec a 0) as [->|Ha0].
  - unfold JS.ceil_div. rewrite Zdiv_0_l. reflexivity.
  - unfold JS.f64.
    replace (Qcompare (a # p) 0) with Gt
      by (symmetry; apply Qgt_alt; unfold Qlt; cbn; lia).
    destruct (f64_pos_shape (a # p) 32) as [N [HN E]];
      [cbn; lia | lia | unfold Qlt; cbn; nia |].
    rewrite (Qceiling_comp _ _ E).
    assert (HP : 2 ^ 21 <= 2 ^ N) by (apply Z.pow_le_mono_r; lia).
    rewrite <- ceil_div_Qceiling by lia.
    rewrite (round_ne_comp _ (a * 2 ^ N # p)) by (unfold Qeq; cbn; lia).
    pose proof (round_ne_bounds (a * 2 ^ N) p) as B.
    set (m := JS.round_ne (a * 2 ^ N # p)) in *.
    set (P := 2 ^ N) in *.
    set (c := JS.ceil_div a (Zpos p)).
    assert (C1 := ceil_div_lower a (Zpos p) ltac:(lia)).
    assert (C2 := ceil_div_mul a (Zpos p) ltac:(lia)). fold c in C1, C2.
    assert (U1 : a * P <= c * Zpos p * P) by (apply Z.mul_le_mono_nonneg_r; lia).
    assert (U2 : ((c - 1) * Zpos p + 1) * P <= a * P) by (apply Z.mul_le_mono_nonneg_r; lia).
    assert (V1 : Zpos p * (2 * (m - c * P) - 1) <= 0) by lia.
    assert (V2 : 0 < Zpos p * (2 * (m - (c - 1) * P))) by lia.
    assert (W1 : m <= c * P).
    { destruct (Z.le_gt_cases m (c * P)) as [H|H]; [exact H|]. nia. }
    assert (W2 : (c - 1) * P < m).
    { destruct (Z.lt_ge_cases ((c - 1) * P) m) as [H|H]; [exact H|]. nia. }
    unfold JS.ceil_div at 1.
    rewrite <- (Z.div_unique (- m) P (- c) (c * P - m)); [lia | left; lia | lia].
Qed.

Lemma inject_Z_sub (a b : Z) : inject_Z (a - b) == inject_Z a - inject_Z b.
Proof. unfold Qeq, Qminus, Qplus, Qopp, inject_Z. cbn. lia. Qed.

Lemma Qmax_inject (a b : Z) : (Qmax (inject_Z a) (inject_Z b) == inject_Z (Z.max a b))%Q.
Proof.
  destruct (Z.le_ge_cases a b) as [H|H].
  - rewrite Z.max_r by exact H. apply Q.max_r. rewrite <- Zle_Qle. exact H.
  - rewrite Z.max_l by exact H. apply Q.max_l. rewrite <- Zle_Qle. exact H.
Qed.

Lemma Qmin_inject (a b : Z) : (Qmin (inject_Z a) (inject_Z b) == inject_Z (Z.min a b))%Q.
Proof.
  destruct (Z.le_ge_cases a b) as [H|H].
  - rewrite Z.min_l by exact H. apply Q.min_l. rewrite <- Zle_Qle. exact H.
  - rewrite Z.min_r by exact H. apply Q.min_r. rewrite <- Zle_Qle. exact H.
Qed.

(** A number with an integer value. *)
Definition whole (q : Q) : Prop := exists k : Z, (q == inject_Z k)%Q.

(** An optional page argument that is absent or whole. *)
Definition whole_arg (p : option Q) : Prop :=
  match p with Some q => whole q | None => True end.

(** Clamping a whole page into [[1, pages]] gives a whole page there. *)
Lemma clamp_whole (x : Q) (pages : Z) :
  whole x -> 1 <= pages ->
  exists z, 1 <= z <= pages /\ (Qmin (Qmax x 1) (inject_Z pages) == inject_Z z)%Q.
Proof.
  intros [k Hk] Hp. exists (Z.min (Z.max k 1) pages). split; [lia|].
  rewrite Hk. change 1%Q with (inject_Z 1). rewrite Qmax_inject. apply Qmin_inject.
Qed.

Lemma pages_f64 (len size : Z) :
  0 <= len < 2 ^ 32 -> 1 <= size <= 500 ->
  Z.max 1 (Qceiling (JS.f64 (inject_Z len / inject_Z size))) = Z.max 1 (JS.ceil_div len size).
Proof. intros H1 H2. rewrite f64_ceil_div by lia. reflexivity. Qed.

(** Link: on whole page numbers and documents of fewer than [2 ^ 32]
    lines, the rounded body of [get_bun_doc] is the exact one. *)
Lemma bun_page_f64_exact (lines : list string) (page pageSize : option Q) :
  Z.of_nat (length lines) < 2 ^ 32 -> whole_arg page ->
  bun_page_f64 lines page pageSize = bun_page lines page pageSize.
Proof.
  intros Hl Hw. unfold bun_page_f64, bun_page. cbv zeta.
  assert (Hr := clampPageSize_range pageSize).
  set (size := clampPageSize pageSize) in *.
  set (len := Z.of_nat (length lines)) in *.
  rewrite pages_f64 by lia.
  set (pages := Z.max 1 (JS.ceil_div len size)).
  assert (Hp1 : 1 <= pages) by (unfold pages; lia).
  assert (Hple : pages <= Z.max 1 len)
    by (unfold pages; assert (JS.ceil_div len size <= len) by (apply ceil_div_le; lia); lia).
  assert (Hw' : whole (default 1%Q page))
    by (destruct page as [q|]; [exact Hw | exists 1; reflexivity]).
  destruct (clamp_whole _ pages Hw' Hp1) as [z [Hz Hcp]].
  set (cp := Qmin (Qmax (default 1%Q page) 1) (inject_Z pages)) in *.
  assert (O1 : (JS.f64 (cp - 1) == inject_Z (z - 1))%Q)
    by (apply f64_exact_int; [rewrite Hcp, inject_Z_sub; reflexivity | lia]).
  assert (O2 : (JS.f64 (JS.f64 (cp - 1) * inject_Z size) == inject_Z ((z - 1) * size))%Q)
    by (apply f64_exact_int; [rewrite O1, inject_Z_mult; reflexivity | nia]).
  assert (O3 : (JS.f64 (JS.f64 (JS.f64 (cp - 1) * inject_Z size) + inject_Z size)
                == inject_Z ((z - 1) * size + size))%Q)
    by (apply f64_exact_int; [rewrite O2, inject_Z_plus; reflexivity | nia]).
  f_equal. unfold JS.slice.
  rewrite (trunc_comp (JS.f64 (JS.f64 (cp - 1) * inject_Z size)) ((cp - 1) * inject_Z size))
    by (rewrite O2, Hcp, inject_Z_mult, inject_Z_sub; reflexivity).
  rewrite (trunc_comp (JS.f64 (JS.f64 (JS.f64 (cp - 1) * inject_Z size) + inject_Z size))
                      ((cp - 1) * inject_Z size + inject_Z size))
    by (rewrite O3, Hcp, inject_Z_plus, inject_Z_mult, inject_Z_sub; reflexivity).
  reflexivity.
Qed.

(** Link: on whole page numbers and documents of fewer than [2 ^ 32]
    lines, the rounded body of [get_bun_doc_pages] is the exact one. *)
Lemma bun_pages_f64_exact (lines : list string) (startPage : Q) (endPage pageSize : option Q) :
  Z.of_nat (length lines) < 2 ^ 32 -> whole startPage -> whole_arg endPage ->
  bun_pages_f64 lines startPage endPage pageSize = bun_pages lines startPage endPage pageSize.
Proof.
  intros Hl Hws Hwe. unfold bun_pages_f64, bun_pages. cbv zeta.
  assert (Hr := clampPageSize_range pageSize).
  set (size := clampPageSize pageSize) in *.
  set (len := Z.of_nat (length lines)) in *.
  rewrite pages_f64 by lia.
  set (pages := Z.max 1 (JS.ceil_div len size)).
  assert (Hp1 : 1 <= pages) by (unfold pages; lia).
  assert (Hple : pages <= Z.max 1 len)
    by (unfold pages; assert (JS.ceil_div len size <= len) by (apply ceil_div_le; lia); lia).
  destruct (clamp_whole _ pages Hws Hp1) as [z [Hz Hs]].
  set (s := Qmin (Qmax startPage 1) (inject_Z pages)) in *.
  assert (Hwd : whole (default startPage endPage)) by (destruct endPage; assumption).
  destruct Hwd as [k Hk].
  assert (He : (Qmin (Qmax (default startPage endPage) s) (inject_Z pages)
                == inject_Z (Z.min (Z.max k z) pages))%Q)
    by (rewrite Hk, Hs, Qmax_inject; apply Qmin_inject).
  set (e := Qmin (Qmax (default startPage endPage) s) (inject_Z pages)) in *.
  assert (O1 : (JS.f64 (s - 1) == inject_Z (z - 1))%Q)
    by (apply f64_exact_int; [rewrite Hs, inject_Z_sub; reflexivity | lia]).
  assert (O2 : (JS.f64 (JS.f64 (s - 1) * inject_Z size) == inject_Z ((z - 1) * size))%Q)
    by (apply f64_exact_int; [rewrite O1, inject_Z_mult; reflexivity | nia]).
  assert (O3 : (JS.f64 (e * inject_Z size) == inject_Z (Z.min (Z.max k z) pages * size))%Q)
    by (apply f64_exact_int; [rewrite He, inject_Z_mult; reflexivity | nia]).
  f_equal. unfold JS.slice.
  rewrite (trunc_comp (JS.f64 (JS.f64 (s - 1) * inject_Z size)) ((s - 1) * inject_Z size))
    by (rewrite O2, Hs, inject_Z_mult, inject_Z_sub; reflexivity).
  rewrite (trunc_comp (JS.f64 (e * inject_Z size)) (e * inject_Z size))
    by (rewrite O3, He, inject_Z_mult; reflexivity).
  reflexivity.
Qed.



Lemma cache_coherent_empty (docs : list entry) : cache_coherent docs ∅.
Proof. intros id sl H. rewrite lookup_empty in H. discriminate. Qed.





(* ------------------------------------------------------------------ *)
(** ** Page ranges *)

(** [Math.min(Math.max(x, s), P)] against "clamp into [[1, P]], then raise
    to [s]" when [1 <= s <= P]. *)
Lemma clamp_then_raise (x s P : Q) :
  (1 <= s)%Q -> (s <= P)%Q ->
  (Qmin (Qmax x s) P == Qmax (Qmin (Qmax x 1) P) s)%Q.
Proof.
  intros H1 H2.
  destruct (Qlt_le_dec s x) as [Hsx|Hxs].
  - assert (Hmx : (Qmax x s == x)%Q) by (apply Q.max_l; apply Qlt_le_weak; exact Hsx).
    assert (Hm1 : (Qmax x 1 == x)%Q)
      by (apply Q.max_l; apply (Qle_trans _ s); [exact H1 | apply Qlt_le_weak; exact Hsx]).
    rewrite Hmx, Hm1.
    destruct (Qlt_le_dec P x) as [HPx|HxP].
    + assert (Hmn : (Qmin x P == P)%Q) by (apply Q.min_r; apply Qlt_le_weak; exact HPx).
      rewrite Hmn. symmetry. apply Q.max_l. exact H2.
    + assert (Hmn : (Qmin x P == x)%Q) by (apply Q.min_l; exact HxP).
      rewrite Hmn. symmetry. apply Q.max_l. apply Qlt_le_weak. exact Hsx.
  - assert (Hmx : (Qmax x s == s)%Q) by (apply Q.max_r; exact Hxs).
    rewrite Hmx.
    assert (Hms : (Qmin s P == s)%Q) by (apply Q.min_l; exact H2).
    rewrite Hms. symmetry. apply Q.max_r.
    apply (Qle_trans _ (Qmax x 1)); [apply Q.le_min_l|].
    apply Q.max_lub; assumption.
Qed.

(** The exact-arithmetic body of [get_bun_doc_pages]: both pages clamped
    into [[1, totalPages]], the end raised to the start, and the lines
    [[(startPage - 1) * pageSize, endPage * pageSize)]. *)
Lemma bun_pages_exact_range (lines : list string) (startPage : Q)
    (endPage pageSize : option Q) :
  let size := spec_page_size pageSize in
  let pages := Z.max 1 (Qceiling (inject_Z (Z.of_nat (length lines)) / inject_Z size)) in
  let clamp (x : Q) := Qmin (Qmax x 1) (inject_Z pages) in
  let s := clamp startPage in
  let e := Qmax (clamp (default startPage endPage)) s in
  let r := bun_pages lines startPage endPage pageSize in
  ps_startPage r = s /\
  (ps_endPage r == e)%Q /\
  ps_totalPages r = pages /\
  ps_content r = JS.join (String "010"%char EmptyString)
                   (JS.slice lines ((s - 1) * inject_Z size) (e * inject_Z size)).
Proof.
  intros size pages clamp s e r.
  assert (Hsz : clampPageSize pageSize = size) by apply clampPageSize_spec.
  assert (Hr := clampPageSize_range pageSize).
  assert (Htot : Z.max 1 (JS.ceil_div (Z.of_nat (length lines)) (clampPageSize pageSize)) = pages).
  { unfold pages. rewrite Hsz, ceil_div_Qceiling by lia. reflexivity. }
  assert (H1 : 1 <= pages) by (unfold pages; lia).
  destruct (clamp_page_bounds startPage pages H1) as [Hs1 Hs2].
  assert (He : (Qmin (Qmax (default startPage endPage) s) (inject_Z pages) == e)%Q)
    by (apply clamp_then_raise; assumption).
  unfold r, bun_pages. rewrite Htot, Hsz. fold s.
  split; [reflexivity|]. split; [exact He|]. split; [reflexivity|].
  cbn [ps_content]. unfold JS.slice. f_equal. f_equal.
  apply trunc_comp. apply Qmult_comp; [exact He | reflexivity].
Qed.

(** ** C6 (counterexample)
    JavaScript evaluates the offsets in doubles.  With 400 lines, page size
    200 and [startPage] the double nearest to 1.055, [e * size] rounds up
    to 211: [get_bun_doc_pages] returns the 201 lines [slice(10, 211)],
    where the slice [[(startPage - 1) * pageSize, endPage * pageSize)] holds
    200 lines. *)
Lemma get_bun_doc_pages_fractional_counterexample :
  let lines := repeat "x"%string 400 in
  let sp := JS.f64 (1055 # 1000) in
  let r := bun_pages_f64 lines sp None (Some (inject_Z 200)) in
  ps_startPage r = sp /\ ps_endPage r = sp /\ ps_totalPages r = 2 /\
  ps_content r = JS.join (String "010"%char EmptyString) (repeat "x"%string 201) /\
  JS.slice lines ((sp - 1) * inject_Z 200) (sp * inject_Z 200) = repeat "x"%string 200 /\
  ps_content r <> JS.join (String "010"%char EmptyString)
                    (JS.slice lines ((sp - 1) * inject_Z 200) (sp * inject_Z 200)).
Proof.
  vm_compute. split; [reflexivity|]. split; [reflexivity|]. split; [reflexivity|].
  split; [reflexivity|]. split; [reflexivity|]. discriminate.
Qed.

(** ** C6 (amended)
    For whole [startPage] and [endPage] (the latter possibly absent) and a
    document of fewer than [2 ^ 32] lines, [get_bun_doc_pages], computing
    in doubles, clamps [startPage] and [endPage] (default [startPage])
    independently into [[1, totalPages]], raises [endPage] to the clamped
    [startPage], and returns those pages together with the lines
    [lines.slice((startPage - 1) * pageSize, endPage * pageSize)] joined
    with a newline. *)
Theorem get_bun_doc_pages_range (lines : list string) (startPage : Q)
    (endPage pageSize : option Q) :
  Z.of_nat (length lines) < 2 ^ 32 -> whole startPage -> whole_arg endPage ->
  let size := spec_page_size pageSize in
  let pages := Z.max 1 (Qceiling (inject_Z (Z.of_nat (length lines)) / inject_Z size)) in
  let clamp (x : Q) := Qmin (Qmax x 1) (inject_Z pages) in
  let s := clamp startPage in
  let e := Qmax (clamp (default startPage endPage)) s in
  let r := bun_pages_f64 lines startPage endPage pageSize in
  ps_startPage r = s /\
  (ps_endPage r == e)%Q /\
  ps_totalPages r = pages /\
  ps_content r = JS.join (String "010"%char EmptyString)
                   (JS.slice lines ((s - 1) * inject_Z size) (e * inject_Z size)).
Proof.
  intros Hl Hs He. cbv zeta. rewrite bun_pages_f64_exact by assumption.
  apply bun_pages_exact_range.
Qed.

Lemma get_bun_doc_pages_range_witness :
  let lines := repeat "x"%string 5 in
  let size := spec_page_size (Some (inject_Z 2)) in
  let pages := Z.max 1 (Qceiling (inject_Z (Z.of_nat (length lines)) / inject_Z size)) in
  let clamp (x : Q) := Qmin (Qmax x 1) (inject_Z pages) in
  let s := clamp (inject_Z 2) in
  let e := Qmax (clamp (default (inject_Z 2) (Some (inject_Z 7)))) s in
  let r := bun_pages_f64 lines (inject_Z 2) (Some (inject_Z 7)) (Some (inject_Z 2)) in
  ps_startPage r = s /\
  (ps_endPage r == e)%Q /\
  ps_totalPages r = pages /\
  ps_content r = JS.join (String "010"%char EmptyString)
                   (JS.slice lines ((s - 1) * inject_Z size) (e * inject_Z size)).
Proof.
  apply (get_bun_doc_pages_range (repeat "x"%string 5) (inject_Z 2) (Some (inject_Z 7))
           (Some (inject_Z 2))).
  - vm_compute. reflexivity.
  - exists 2. reflexivity.
  - exists 7. reflexivity.
Defined.

(* ------------------------------------------------------------------ *)
(** ** Section locator *)

(** Heading outlines whose headings all carry a 1-based line number, in
    strictly increasing order. *)
Definition outline_well_formed (hs : list heading) : Prop :=
  (forall i h, nth_error hs i = Some h -> exists l, h_line h = Some l /\ 1 <= l) /\
  (forall i j hi hj li lj, (i < j)%nat -> nth_error hs i = Some hi -> nth_error hs j = Some hj ->
     h_line hi = Some li -> h_line hj = Some lj -> li < lj).

Lemma findIndex_first {A} (p : A -> bool) (xs : list A) (k : nat) (x : A) :
  nth_error xs k = Some x -> p x = true ->
  (forall i y, (i < k)%nat -> nth_error xs i = Some y -> p y = false) ->
  findIndex p xs = Z.of_nat k.
Proof.
  revert k. induction xs as [|a xs IH]; intros k Hk Hp Hbefore.
  - destruct k; discriminate.
  - destruct k as [|k]; simpl in Hk.
    + injection Hk as ->. simpl. rewrite Hp. reflexivity.
    + simpl. rewrite (Hbefore 0%nat a) by (reflexivity || lia).
      rewrite (IH k Hk Hp).
      * replace (Z.of_nat k <? 0) with false by (symmetry; apply Z.ltb_ge; lia). lia.
      * intros i y Hi Hy. apply (Hbefore (S i)); [lia | exact Hy].
Qed.

Lemma scan_end_spec (d : Z) (l : list heading) :
  (exists j h', nth_error l j = Some h' /\ h_depth h' <= d /\
     (forall i hi, (i < j)%nat -> nth_error l i = Some hi -> d < h_depth hi) /\
     scan_end d l = match h_line h' with Some x => EndAt (x - 1) | None => EndNaN end) \/
  ((forall i hi, nth_error l i = Some hi -> d < h_depth hi) /\ scan_end d l = EndInf).
Proof.
  induction l as [|a l IH].
  - right. split; [intros i hi H; destruct i; discriminate | reflexivity].
  - simpl. destruct (h_depth a <=? d) eqn:Ha.
    + left. exists 0%nat, a. apply Z.leb_le in Ha.
      split; [reflexivity|]. split; [exact Ha|]. split; [intros i hi Hi; lia | reflexivity].
    + apply Z.leb_gt in Ha.
      destruct IH as [(j & h' & Hj & Hd & Hb & He)|(Hall & He)].
      * left. exists (S j), h'. split; [exact Hj|]. split; [exact Hd|].
        split; [|exact He].
        intros [|i] hi Hi Hhi; simpl in Hhi.
        -- injection Hhi as <-. exact Ha.
        -- apply (Hb i); [lia | exact Hhi].
      * right. split; [|exact He].
        intros [|i] hi Hhi; simpl in Hhi.
        -- injection Hhi as <-. exact Ha.
        -- exact (Hall i hi Hhi).
Qed.

Lemma eligible_incl (hs : list heading) (depth : option Q) (h : heading) :
  In h (eligible hs depth) -> In h hs.
Proof.
  unfold eligible. destruct depth as [d|]; [|auto].
  destruct (Qeq_bool d 0); [auto|]. intros Hin. apply filter_In in Hin. apply Hin.
Qed.

(** In a well-formed outline the [findIndex] by line recovers the position
    of the heading. *)
Lemma origIdx_position (hs : list heading) (k : nat) (h : heading) :
  outline_well_formed hs -> nth_error hs k = Some h ->
  findIndex (fun h0 => line_eqb (h_line h0) (h_line h)) hs = Z.of_nat k.
Proof.
  intros [Hl Hinc] Hk. apply (findIndex_first _ _ k h Hk).
  - destruct (h_line h) as [x|]; simpl; [apply Z.eqb_refl | reflexivity].
  - intros i y Hi Hy.
    destruct (Hl i y Hy) as (ly & Hly & _). destruct (Hl k h Hk) as (lk & Hlk & _).
    rewrite Hly, Hlk. simpl. apply Z.eqb_neq.
    assert (ly < lk) by exact (Hinc i k y h ly lk Hi Hy Hk Hly Hlk). lia.
Qed.

Definition example_outline : list heading :=
  [ {| h_depth := 1; h_text := "Main"; h_line := Some 1 |};
    {| h_depth := 2; h_text := "Intro"; h_line := Some 2 |};
    {| h_depth := 2; h_text := "Features"; h_line := Some 10 |} ].

(** ** C4
    For a well-formed outline, the section located for a query starts at the
    matched heading (the first eligible heading whose normalised text
    contains the normalised query), and ends on the line before the next
    heading, in full outline order, whose depth is at most the matched
    heading's depth; when there is none, [endLine] is [Infinity] and the
    returned [toLine] is the last line of the document.  On the outline
    Main(1, line 1), Intro(2, line 2), Features(2, line 10) the query
    [intro] gives lines 2 to 9. *)
Theorem findSectionRange_end_line (hs : list heading) (query : string) (depth : option Q)
    (m : range) :
  outline_well_formed hs ->
  findSectionRange hs query depth = Some m ->
  (exists k h,
     nth_error hs k = Some h /\
     List.find (fun h0 => JS.includes (norm (h_text h0)) (norm query)) (eligible hs depth) = Some h /\
     startLine m = h_line h /\
     ((exists j h' l', (k < j)%nat /\ nth_error hs j = Some h' /\ h_depth h' <= h_depth h /\
         (forall i hi, (k < i < j)%nat -> nth_error hs i = Some hi -> h_depth h < h_depth hi) /\
         h_line h' = Some l' /\ endLine m = EndAt (l' - 1))
      \/
      ((forall i hi, (k < i)%nat -> nth_error hs i = Some hi -> h_depth h < h_depth hi) /\
       endLine m = EndInf /\
       forall lines size, sr_toLine (section_payload lines size m) = Some (Z.of_nat (length lines))))) /\
  findSectionRange example_outline "intro" None = Some {| startLine := Some 2; endLine := EndAt 9 |}.
Proof.
  intros Hwf Hm. split; [|reflexivity].
  unfold findSectionRange in Hm.
  destruct (List.find _ (eligible hs depth)) as [h|] eqn:Hf; [|discriminate].
  injection Hm as <-.
  destruct (find_some _ _ Hf) as [Hin _].
  apply eligible_incl in Hin. apply In_nth_error in Hin as [k Hk].
  exists k, h. split; [exact Hk|]. split; [reflexivity|]. split; [reflexivity|].
  rewrite (origIdx_position hs k h Hwf Hk).
  replace (Z.to_nat (Z.of_nat k + 1)) with (S k) by lia.
  cbn [endLine].
  destruct (scan_end_spec (h_depth h) (skipn (S k) hs))
    as [(j & h' & Hj & Hd & Hb & He)|(Hall & He)].
  - left. rewrite nth_error_skipn in Hj.
    assert (Hj' : nth_error hs (S k + j) = Some h') by exact Hj.
    destruct (proj1 Hwf _ _ Hj') as (l' & Hl' & _).
    exists (S k + j)%nat, h', l'. split; [lia|]. split; [exact Hj'|]. split; [exact Hd|].
    split; [|split; [exact Hl'|]].
    + intros i hi Hi Hhi. apply (Hb (i - S k)%nat); [lia|].
      rewrite nth_error_skipn. replace (S k + (i - S k))%nat with i by lia. exact Hhi.
    + rewrite He, Hl'. reflexivity.
  - right. split; [|split; [exact He|]].
    + intros i hi Hi Hhi. apply (Hall (i - S k)%nat).
      rewrite nth_error_skipn. replace (S k + (i - S k))%nat with i by lia. exact Hhi.
    + intros lines size. unfold section_payload. cbn [endLine]. rewrite He. reflexivity.
Qed.

Lemma example_outline_well_formed : outline_well_formed example_outline.
Proof.
  split.
  - intros i h H. apply nth_error_In in H. simpl in H.
    destruct H as [<-|[<-|[<-|[]]]]; eexists; (split; [reflexivity | lia]).
  - intros i j hi hj li lj Hij Hi Hj Hli Hlj.
    assert (Hj3 : (j < length example_outline)%nat) by (apply nth_error_Some; rewrite Hj; discriminate).
    simpl in Hj3.
    destruct i as [|[|i]]; destruct j as [|[|[|j]]]; try lia;
      simpl in Hi, Hj; injection Hi as <-; injection Hj as <-; simpl in Hli, Hlj;
      injection Hli as <-; injection Hlj as <-; lia.
Qed.

Lemma findSectionRange_end_line_witness :
  exists k h, nth_error example_outline k = Some h /\ startLine {| startLine := Some 2; endLine := EndAt 9 |} = h_line h.
Proof.
  destruct (findSectionRange_end_line example_outline "intro" None
              {| startLine := Some 2; endLine := EndAt 9 |}
              example_outline_well_formed eq_refl)
    as [(k & h & Hk & _ & Hs & _) _].
  exists k, h. split; assumption.
Defined.

(** ** C7 (divergence)
    A supplied [depth] of [0] is falsy in [depth ? ... : hs], so every
    heading stays eligible: an H2 heading is matched although no heading has
    depth 0. *)
Theorem findSectionRange_depth_zero_unfiltered :
  findSectionRange [ {| h_depth := 2; h_text := "Intro"; h_line := Some 2 |} ] "intro" (Some 0%Q)
    = Some {| startLine := Some 2; endLine := EndInf |} /\
  eligible [ {| h_depth := 2; h_text := "Intro"; h_line := Some 2 |} ] (Some 0%Q)
    = [ {| h_depth := 2; h_text := "Intro"; h_line := Some 2 |} ].
Proof. split; reflexivity. Qed.

(** For a well-formed outline the located range has a numeric start of at
    least 1 and an end that is [Infinity] or not before the start. *)
Lemma findSectionRange_numeric (hs : list heading) (query : string) (depth : option Q)
    (m : range) :
  outline_well_formed hs ->
  findSectionRange hs query depth = Some m ->
  exists s, startLine m = Some s /\ 1 <= s /\
    (endLine m = EndInf \/ exists x, endLine m = EndAt x /\ s <= x).
Proof.
  intros Hwf Hm. unfold findSectionRange in Hm.
  destruct (List.find _ (eligible hs depth)) as [h|] eqn:Hf; [|discriminate].
  injection Hm as <-.
  destruct (find_some _ _ Hf) as [Hin _].
  apply eligible_incl in Hin. apply In_nth_error in Hin as [k Hk].
  destruct (proj1 Hwf k h Hk) as (s & Hs & Hs1).
  exists s. cbn [startLine endLine]. split; [exact Hs|]. split; [exact Hs1|].
  rewrite (origIdx_position hs k h Hwf Hk).
  replace (Z.to_nat (Z.of_nat k + 1)) with (S k) by lia.
  destruct (scan_end_spec (h_depth h) (skipn (S k) hs))
    as [(j & h' & Hj & _ & _ & He)|(_ & He)]; [right|left; exact He].
  rewrite nth_error_skipn in Hj.
  destruct (proj1 Hwf _ _ Hj) as (l' & Hl' & _).
  assert (s < l') by exact (proj2 Hwf k (S k + j)%nat h h' s l' ltac:(lia) Hk Hj Hs Hl').
  exists (l' - 1). rewrite He, Hl'. split; [reflexivity | lia].
Qed.

Definition section_doc : entry :=
  {| e_id := 0; e_title := "Main"; e_description := None; e_preview := "a b c";
     e_content := ("a" ++ String "010"%char EmptyString ++ "b" ++
                   String "010"%char EmptyString ++ "c")%string;
     e_headings := example_outline |}.

Definition section_call : result section_result * cache :=
  get_bun_doc_section [section_doc] ∅ 0 "intro" None None.

Definition section_call_result : section_result :=
  match fst section_call with
  | Ok r => r
  | _ => {| sr_content := EmptyString; sr_fromLine := None; sr_toLine := None;
            sr_pageStart := None; sr_pageEnd := None; sr_totalPages := 0 |}
  end.

(** ** C2 (divergence)
    For an id with no entry ([docs.length], the next id to be assigned),
    [get_bun_doc] and [get_bun_doc_pages] end in a defect ([docs[id].content]
    throws inside the cache lookup), while [get_bun_doc_section] fails with
    the typed error [Document not found]. *)
Theorem unknown_document_outcomes (docs : list entry) (page pageSize endPage depth : option Q)
    (startPage : Q) (hd : string) :
  fst (get_bun_doc docs ∅ (Z.of_nat (length docs)) page pageSize) = Die /\
  fst (get_bun_doc_pages docs ∅ (Z.of_nat (length docs)) startPage endPage pageSize) = Die /\
  fst (get_bun_doc_section docs ∅ (Z.of_nat (length docs)) hd depth pageSize)
    = Fail "Document not found"%string.
Proof.
  assert (Hl : lookup docs (Z.of_nat (length docs)) = None) by (apply lookup_beyond; lia).
  assert (Hg : cache_get docs ∅ (Z.of_nat (length docs))
               = (Die, <[Z.of_nat (length docs) := Pending]> ∅)).
  { unfold cache_get. rewrite lookup_empty, Hl. reflexivity. }
  unfold get_bun_doc, get_bun_doc_pages, get_bun_doc_section.
  rewrite Hg, Hl. repeat split.
Qed.

(* ------------------------------------------------------------------ *)
(** ** Loaders *)

(** An entry without its id ([Omit<DocumentEntry, "id">]). *)
Definition entry_doc (e : entry) : doc :=
  {| d_title := e_title e; d_description := e_description e; d_preview := e_preview e;
     d_content := e_content e; d_headings := e_headings e |}.

Lemma addDoc_entry_docs (docs : list entry) (d : doc) :
  map entry_doc (addDoc docs d) = map entry_doc docs ++ [d].
Proof. unfold addDoc. rewrite map_app. destruct d. reflexivity. Qed.

Lemma collect_headings_no_line (nodes : list mdnode) :
  Forall (fun h => h_line h = None) (collect_headings nodes).
Proof.
  induction nodes as [|n rest IH]; [constructor|].
  destruct n; simpl; [exact IH | constructor; [reflexivity | exact IH] | exact IH].
Qed.

Section LoaderFacts.
Variable remark_root : string -> list mdnode.
Variable remark_frontmatter : string -> list (string * string).
Variable remark_value : string -> string.
Variable tryFetchText : string -> option string.
Variable basename : string -> string.
Variable fetchRaw : string -> option string.

Let ingest := bun_ingest remark_root remark_frontmatter remark_value tryFetchText basename.

Let bun_step (acc : list entry) (loc : string) : list entry :=
  match ingest loc with Some d => addDoc acc d | None => acc end.

Lemma bun_fold_entry_docs (l : list string) (docs : list entry) :
  map entry_doc (fold_left bun_step l docs)
    = map entry_doc docs ++ flat_map (fun loc => option_list (ingest loc)) l.
Proof.
  revert docs. induction l as [|loc l IH]; intros docs; simpl.
  - rewrite app_nil_r. reflexivity.
  - rewrite IH. unfold bun_step.
    destruct (ingest loc) as [d|]; simpl.
    + rewrite addDoc_entry_docs, <- app_assoc. reflexivity.
    + reflexivity.
Qed.

Lemma bun_fold_headings (l : list string) (docs : list entry) :
  Forall (fun e => Forall (fun h => h_line h = None) (e_headings e)) docs ->
  Forall (fun e => Forall (fun h => h_line h = None) (e_headings e)) (fold_left bun_step l docs).
Proof.
  revert docs. induction l as [|loc l IH]; intros docs Hd; simpl; [exact Hd|].
  apply IH. unfold bun_step, ingest, bun_ingest.
  destruct (tryFetchText (loc ++ ".md")); [|exact Hd].
  unfold addDoc. apply Forall_app. split; [exact Hd|].
  constructor; [|constructor]. apply collect_headings_no_line.
Qed.

Lemma bun_loadDocs_fold (docs : list entry) (locs : list string) :
  bun_loadDocs remark_root remark_frontmatter remark_value tryFetchText basename docs locs
    = fold_left bun_step (bun_urls locs) docs.
Proof. reflexivity. Qed.



End LoaderFacts.

Definition sample_root (_ : string) : list mdnode := [MHeading 1 [MText "Main"%string]].
Definition sample_fetch (_ : string) : option string := Some "# Main"%string.
Definition sample_basename (_ : string) : string := "runtime"%string.

(** ** C1 (divergence)
    Whatever remark returns and whatever the fetches give, every heading the
    Bun loader registers lacks a [line] property: [Markdown.process] builds
    [{ depth, text }] objects only.  For the page [# Main] the registered
    outline is [[{ depth: 1, text: "Main" }]]. *)
Theorem bun_loaded_headings_lack_line
    (remark_root : string -> list mdnode) (remark_frontmatter : string -> list (string * string))
    (remark_value : string -> string) (tryFetchText : string -> option string)
    (basename : string -> string) (locs : list string) :
  Forall (fun e => Forall (fun h => h_line h = None) (e_headings e))
    (bun_loadDocs remark_root remark_frontmatter remark_value tryFetchText basename [] locs) /\
  map e_headings (bun_loadDocs sample_root (fun _ => []) (fun s => s) sample_fetch sample_basename
                    [] ["https://bun.com/docs/runtime"%string])
    = [[ {| h_depth := 1; h_text := "Main"; h_line := None |} ]].
Proof.
  split; [|reflexivity].
  rewrite bun_loadDocs_fold. apply bun_fold_headings. constructor.
Qed.

Section RunFacts.
Variable remark_root : string -> list mdnode.
Variable remark_fm : string -> list (string * fm_value).
Variable remark_value : string -> string.
Variable remark_rejects : string -> bool.
Variable fetchMd : string -> md_fetch.
Variable basename : string -> string.










End RunFacts.





(* ------------------------------------------------------------------ *)
(** ** Sections of Bun pages *)

Lemma bun_run_headings
    (remark_root : string -> list mdnode) (remark_fm : string -> list (string * fm_value))
    (remark_value : string -> string) (remark_rejects : string -> bool)
    (fetchMd : string -> md_fetch) (basename : string -> string)
    (docs : list entry) (h : nat) (urls : list string) :
  Forall (fun e => Forall (fun h => h_line h = None) (e_headings e)) docs ->
  Forall (fun e => Forall (fun h => h_line h = None) (e_headings e))
    (fst (bun_run remark_root remark_fm remark_value remark_rejects fetchMd basename docs h urls)).
Proof.
  revert docs h. induction urls as [|loc rest IH]; intros docs h Hd; [exact Hd|].
  cbn [bun_run]. destruct (Nat.leb 10 h); [exact Hd|].
  destruct (fetchMd (loc ++ ".md")%string) as [raw| |]; [|apply IH; exact Hd|apply IH; exact Hd].
  destruct (process_effect remark_root remark_fm remark_value remark_rejects raw) as [file|] eqn:Hp;
    [|exact Hd].
  apply IH. unfold addDoc. apply Forall_app. split; [exact Hd|].
  constructor; [|constructor]. cbn.
  unfold process_effect in Hp.
  destruct (remark_rejects raw); [discriminate|].
  destruct (description_throws (remark_fm raw)); [discriminate|].
  injection Hp as <-. apply collect_headings_no_line.
Qed.

(** On a store whose headings have no [line], a located section has
    [startLine = undefined]: [fromLine], [pageStart] and [pageEnd] are
    [NaN]. *)
Lemma section_without_lines (docs : list entry) (c : cache) (id : Z) (hd : string)
    (depth pageSize : option Q) :
  Forall (fun e => Forall (fun h => h_line h = None) (e_headings e)) docs ->
  match fst (get_bun_doc_section docs c id hd depth pageSize) with
  | Ok r => sr_fromLine r = None /\ sr_pageStart r = None /\ sr_pageEnd r = None
  | _ => True
  end.
Proof.
  intros Hd. unfold get_bun_doc_section.
  destruct (lookup docs id) as [e|] eqn:Hl; [|exact I].
  destruct (cache_get docs c id) as [r c'].
  destruct r as [ls| | |]; cbn [fst bind_lines]; try exact I.
  destruct (findSectionRange (e_headings e) hd depth) as [m|] eqn:Hf; [|exact I].
  unfold findSectionRange in Hf.
  destruct (List.find _ (eligible (e_headings e) depth)) as [h0|] eqn:Hfind; [|discriminate].
  injection Hf as <-.
  apply find_some in Hfind as [Hin _]. apply eligible_incl in Hin.
  assert (He : In e docs).
  { unfold lookup in Hl. destruct (id <? 0); [discriminate|]. eapply nth_error_In. exact Hl. }
  rewrite List.Forall_forall in Hd. specialize (Hd e He). rewrite List.Forall_forall in Hd.
  specialize (Hd h0 Hin).
  unfold section_payload. cbn [startLine endLine sr_fromLine sr_pageStart sr_pageEnd].
  rewrite Hd. cbn [option_map]. split; [reflexivity|]. split; [reflexivity|].
  destruct (scan_end _ _); reflexivity.
Qed.

Definition section_nl : string := String "010"%char EmptyString.

(** A Bun page with a title and one subsection. *)
Definition install_md : string :=
  ("# Main" ++ section_nl ++ section_nl ++ "## Install" ++ section_nl ++ section_nl ++ "bun add x")%string.

Definition install_root (_ : string) : list mdnode :=
  [MHeading 1 [MText "Main"%string]; MHeading 2 [MText "Install"%string]].

Definition install_docs : list entry :=
  fst (bun_loadDocs_run install_root (fun _ => []) (fun s => s) (fun _ => false)
         (fun _ => MdBody install_md) sample_basename [] ["https://bun.com/docs/runtime"%string]).

(** ** C5 (divergence)
    On every document the Bun loader registers, a successful
    [get_bun_doc_section] returns [fromLine], [pageStart] and [pageEnd] as
    [NaN] ([None]): the headings have no [line], so [startLine] is
    [undefined], [from = Math.max(1, undefined)] is [NaN], and so are
    [Math.ceil(from / size)] and the clamps built on it; the bounds are not
    clamped into [[1, totalLines]].  For the page [# Main / ## Install]
    (5 lines), the section [install] has every bound [NaN] and empty
    content (its end is [undefined - 1], the lookup of its own index finds
    [Main]), and the section [main] has [fromLine] [NaN] and [toLine] 5. *)
Theorem bun_section_bounds_nan
    (remark_root : string -> list mdnode) (remark_fm : string -> list (string * fm_value))
    (remark_value : string -> string) (remark_rejects : string -> bool)
    (fetchMd : string -> md_fetch) (basename : string -> string)
    (locs : list string) (c : cache) (id : Z) (hd : string) (depth pageSize : option Q) :
  match fst (get_bun_doc_section
               (fst (bun_loadDocs_run remark_root remark_fm remark_value remark_rejects
                       fetchMd basename [] locs)) c id hd depth pageSize) with
  | Ok r => sr_fromLine r = None /\ sr_pageStart r = None /\ sr_pageEnd r = None
  | _ => True
  end /\
  fst (get_bun_doc_section install_docs ∅ 0 "install" None None)
    = Ok {| sr_content := EmptyString; sr_fromLine := None; sr_toLine := None;
            sr_pageStart := None; sr_pageEnd := None; sr_totalPages := 1 |} /\
  fst (get_bun_doc_section install_docs ∅ 0 "main" None None)
    = Ok {| sr_content := install_md; sr_fromLine := None; sr_toLine := Some 5;
            sr_pageStart := None; sr_pageEnd := None; sr_totalPages := 1 |}.
Proof.
  split; [|split; vm_compute; reflexivity].
  apply section_without_lines. apply bun_run_headings. constructor.
Qed.

(* ================================================================== *)
(** * Further properties of the toolkits *)

(* ------------------------------------------------------------------ *)
(** ** Previews ([makePreview], both toolkits) *)

Lemma str_app_cons (x : ascii) (a b : string) : (String x a ++ b = String x (a ++ b))%string.
Proof. reflexivity. Qed.

Lemma str_app_assoc (a b c : string) : (a ++ (b ++ c) = (a ++ b) ++ c)%string.
Proof. induction a as [|x a IH]; [reflexivity|]. rewrite !str_app_cons, IH. reflexivity. Qed.

Lemma str_app_nil_r (a : string) : (a ++ EmptyString = a)%string.
Proof. induction a as [|x a IH]; [reflexivity|]. rewrite !str_app_cons, IH. reflexivity. Qed.

Lemma str_app_length (a b : string) :
  String.length (a ++ b) = (String.length a + String.length b)%nat.
Proof.
  induction a as [|x a IH]; [reflexivity|].
  rewrite str_app_cons. cbn [String.length]. rewrite IH. reflexivity.
Qed.

Lemma prefix_length (n : nat) (s : string) :
  String.length (substring 0 n s) = Nat.min n (String.length s).
Proof.
  revert n. induction s as [|c s IH]; intros [|n]; simpl; try reflexivity.
  rewrite IH. reflexivity.
Qed.

Lemma prefix_full (n : nat) (s : string) :
  (String.length s <= n)%nat -> substring 0 n s = s.
Proof.
  revert n. induction s as [|c s IH]; intros [|n] Hn; simpl in *; try reflexivity; try lia.
  rewrite IH by lia. reflexivity.
Qed.

Lemma prefix_app (n : nat) (a b : string) :
  (n <= String.length a)%nat -> substring 0 n (a ++ b) = substring 0 n a.
Proof.
  revert n. induction a as [|c a IH]; intros [|n] Hn; simpl in *.
  - destruct b; reflexivity.
  - lia.
  - reflexivity.
  - rewrite IH by lia. reflexivity.
Qed.

Lemma concat_cons2 (sep x y : string) (l : list string) :
  String.concat sep (x :: y :: l) = (x ++ sep ++ String.concat sep (y :: l))%string.
Proof. reflexivity. Qed.

Lemma concat_snoc (sep t : string) (P : list string) :
  P <> [] -> String.concat sep (P ++ [t]) = (String.concat sep P ++ sep ++ t)%string.
Proof.
  intros HP. induction P as [|x P IH]; [congruence|].
  destruct P as [|y P]; [reflexivity|].
  simpl app in *. rewrite !concat_cons2, IH by discriminate.
  rewrite !str_app_assoc. reflexivity.
Qed.

Lemma concat_app_prefix (sep : string) (P Q : list string) :
  exists r, String.concat sep (P ++ Q) = (String.concat sep P ++ r)%string.
Proof.
  induction P as [|x P IH].
  - exists (String.concat sep Q). reflexivity.
  - destruct IH as [r Hr]. destruct P as [|y P].
    + destruct Q as [|z Q]; simpl.
      * exists EmptyString. rewrite str_app_nil_r. reflexivity.
      * exists (sep ++ String.concat sep (z :: Q))%string. reflexivity.
    + exists r. simpl app in *. rewrite !concat_cons2, Hr, !str_app_assoc. reflexivity.
Qed.

Lemma concat_truthy_empty (sep : string) (P : list string) :
  Forall (fun s => JS.truthy s = true) P -> String.concat sep P = EmptyString -> P = [].
Proof.
  intros HP H. destruct HP as [|x P Hx _]; [reflexivity|].
  destruct x as [|c x]; [discriminate|].
  destruct P; discriminate.
Qed.

(** The step of the [reduce] in [makePreview]. *)
Definition preview_step (acc line : string) : string :=
  if (400 <=? Z.of_nat (String.length acc))%Z then acc
  else let trimmed := JS.trim line in
       if negb (JS.truthy trimmed) then acc
       else let next := if JS.truthy acc
                        then (acc ++ String " "%char trimmed)%string
                        else trimmed in
            JS.str_prefix 400 next.

(** The non-blank trimmed lines of a text. *)
Definition preview_lines (value : string) : list string :=
  List.filter JS.truthy (map JS.trim (JS.split_nl value)).

Lemma preview_step_full (acc line : string) :
  (400 <= Z.of_nat (String.length acc))%Z -> preview_step acc line = acc.
Proof. intros H. unfold preview_step. apply Z.leb_le in H. rewrite H. reflexivity. Qed.

Lemma preview_step_blank (acc line : string) :
  JS.truthy (JS.trim line) = false -> preview_step acc line = acc.
Proof.
  intros H. unfold preview_step. rewrite H.
  destruct (400 <=? Z.of_nat (String.length acc))%Z; reflexivity.
Qed.

Lemma preview_step_next (acc line : string) :
  (String.length acc < 400)%nat -> JS.truthy (JS.trim line) = true ->
  preview_step acc line
    = JS.str_prefix 400 (if JS.truthy acc then (acc ++ String " "%char (JS.trim line))%string
                         else JS.trim line).
Proof.
  intros Hl H. unfold preview_step. rewrite H.
  replace (400 <=? Z.of_nat (String.length acc))%Z with false by (symmetry; apply Z.leb_gt; lia).
  reflexivity.
Qed.

Lemma preview_fold (ls P : list string) :
  Forall (fun s => JS.truthy s = true) P ->
  fold_left preview_step ls (JS.str_prefix 400 (JS.join " " P))
    = JS.str_prefix 400 (JS.join " " (P ++ List.filter JS.truthy (map JS.trim ls))).
Proof.
  revert P. induction ls as [|l ls IH]; intros P HP.
  - cbn [fold_left map List.filter]. rewrite app_nil_r. reflexivity.
  - cbn [fold_left].
    assert (Hf : List.filter JS.truthy (map JS.trim (l :: ls))
                 = if JS.truthy (JS.trim l)
                   then JS.trim l :: List.filter JS.truthy (map JS.trim ls)
                   else List.filter JS.truthy (map JS.trim ls)) by reflexivity.
    rewrite Hf. unfold JS.str_prefix, JS.join in *.
    destruct (Nat.le_gt_cases 400 (String.length (String.concat " " P))) as [HJ|HJ].
    + rewrite preview_step_full by (rewrite prefix_length; lia).
      rewrite IH by exact HP.
      destruct (concat_app_prefix " " P (List.filter JS.truthy (map JS.trim ls))) as [r1 Hr1].
      destruct (concat_app_prefix " " P (if JS.truthy (JS.trim l)
                   then JS.trim l :: List.filter JS.truthy (map JS.trim ls)
                   else List.filter JS.truthy (map JS.trim ls))) as [r2 Hr2].
      rewrite Hr1, Hr2, !prefix_app by exact HJ. reflexivity.
    + rewrite (prefix_full 400 (String.concat " " P)) by lia.
      destruct (JS.truthy (JS.trim l)) eqn:Ht.
      * rewrite preview_step_next by assumption.
        assert (Hnext : (if JS.truthy (String.concat " " P)
                         then (String.concat " " P ++ String " "%char (JS.trim l))%string
                         else JS.trim l) = String.concat " " (P ++ [JS.trim l])).
        { destruct P as [|x P'] eqn:HPe.
          - reflexivity.
          - rewrite concat_snoc by discriminate.
            destruct (JS.truthy (String.concat " " (x :: P'))) eqn:Hx; [reflexivity|].
            exfalso. destruct (String.concat " " (x :: P')) eqn:Hc; [|discriminate].
            apply (concat_truthy_empty " ") in Hc; [discriminate | exact HP]. }
        unfold JS.str_prefix. rewrite Hnext.
        rewrite (IH (P ++ [JS.trim l])).
        -- rewrite <- app_assoc. reflexivity.
        -- apply Forall_app. split; [exact HP | constructor; [exact Ht | constructor]].
      * rewrite preview_step_blank by exact Ht.
        rewrite <- (prefix_full 400 (String.concat " " P)) at 1 by lia.
        apply IH. exact HP.
Qed.

Lemma makePreview_closed_form (value : string) :
  makePreview value = JS.str_prefix 400 (JS.join " " (preview_lines value)).
Proof.
  change (makePreview value)
    with (fold_left preview_step (JS.split_nl value) (JS.str_prefix 400 (JS.join " " []))).
  apply preview_fold. constructor.
Qed.

Lemma preview_lines_truthy (value : string) :
  Forall (fun s => JS.truthy s = true) (preview_lines value).
Proof.
  apply List.Forall_forall. intros x Hx. unfold preview_lines in Hx.
  apply filter_In in Hx. apply Hx.
Qed.

Lemma filter_trim_nil (L : list string) :
  List.filter JS.truthy (map JS.trim L) = [] <-> Forall (fun l => JS.trim l = EmptyString) L.
Proof.
  induction L as [|l L IH]; simpl; [split; constructor|].
  destruct (JS.trim l) as [|c t] eqn:Ht; simpl.
  - rewrite IH. split; [intros H; constructor; [exact Ht | exact H] | intros H; inversion H; assumption].
  - split; [discriminate | intros H; inversion H; congruence].
Qed.

(** ** X1
    [makePreview] is the first 400 characters of the non-blank lines of its
    input, each trimmed, joined with single spaces: the early return once
    the accumulator reaches 400 characters never changes that result. *)
Theorem makePreview_prefix_of_joined_lines (value : string) :
  makePreview value = JS.str_prefix 400 (JS.join " " (preview_lines value)).
Proof. exact (makePreview_closed_form value). Qed.

(** ** X2
    A preview is never longer than 400 characters. *)
Theorem makePreview_length_le_400 (value : string) :
  (String.length (makePreview value) <= 400)%nat.
Proof.
  rewrite makePreview_closed_form. unfold JS.str_prefix. rewrite prefix_length. lia.
Qed.

(** ** X3
    A preview is empty exactly when every line of the input is blank (empty
    or white space only); in particular the empty text has the empty
    preview. *)
Theorem makePreview_empty_iff_blank (value : string) :
  makePreview value = EmptyString <->
  Forall (fun l => JS.trim l = EmptyString) (JS.split_nl value).
Proof.
  rewrite makePreview_closed_form, <- filter_trim_nil. fold (preview_lines value).
  split.
  - intros H. apply (concat_truthy_empty " "); [apply preview_lines_truthy|].
    apply (f_equal String.length) in H. unfold JS.str_prefix, JS.join in H.
    rewrite prefix_length in H. simpl in H.
    destruct (String.concat " " (preview_lines value)) as [|c r]; [reflexivity|].
    simpl in H. lia.
  - intros H. rewrite H. reflexivity.
Qed.

(* ------------------------------------------------------------------ *)
(** ** Document ids *)

(** Every entry carries its own position in [docs] as its id. *)
Definition ids_sequential (docs : list entry) : Prop :=
  forall i e, nth_error docs i = Some e -> e_id e = Z.of_nat i.

Lemma ids_sequential_addDoc (docs : list entry) (d : doc) :
  ids_sequential docs -> ids_sequential (addDoc docs d).
Proof.
  intros H i e Hi. unfold addDoc in Hi.
  destruct (Nat.lt_ge_cases i (length docs)) as [Hlt|Hge].
  - rewrite nth_error_app1 in Hi by exact Hlt. exact (H i e Hi).
  - rewrite nth_error_app2 in Hi by exact Hge.
    destruct (i - length docs)%nat eqn:Hd; [|destruct n; discriminate].
    injection Hi as <-. simpl. f_equal. lia.
Qed.

Lemma ids_sequential_fold {A} (f : list entry -> A -> list entry) (l : list A) (docs : list entry) :
  (forall acc a, f acc a = acc \/ exists d, f acc a = addDoc acc d) ->
  ids_sequential docs -> ids_sequential (fold_left f l docs).
Proof.
  intros Hf. revert docs. induction l as [|a l IH]; intros docs H; simpl; [exact H|].
  apply IH. destruct (Hf docs a) as [->|[d ->]]; [exact H|].
  apply ids_sequential_addDoc. exact H.
Qed.

Lemma ids_sequential_lookup (docs : list entry) (e : entry) :
  ids_sequential docs -> In e docs -> lookup docs (e_id e) = Some e.
Proof.
  intros H Hin. apply In_nth_error in Hin as [i Hi].
  rewrite (H i e Hi). unfold lookup.
  replace (Z.of_nat i <? 0) with false by (symmetry; apply Z.ltb_ge; lia).
  rewrite Nat2Z.id. exact Hi.
Qed.

Lemma ids_sequential_bun_loadDocs
    (remark_root : string -> list mdnode) (remark_frontmatter : string -> list (string * string))
    (remark_value : string -> string) (tryFetchText : string -> option string)
    (basename : string -> string) (docs : list entry) (locs : list string) :
  ids_sequential docs ->
  ids_sequential (bun_loadDocs remark_root remark_frontmatter remark_value tryFetchText basename docs locs).
Proof.
  unfold bun_loadDocs. apply ids_sequential_fold. intros acc loc.
  destruct (bun_ingest _ _ _ _ _ loc) as [d|]; [right; exists d; reflexivity | left; reflexivity].
Qed.

Lemma ids_sequential_addStaticDocs (fetchRaw : string -> option string) (kind : string)
    (entries : list static_entry) (docs : list entry) (logs : list string) :
  ids_sequential docs -> ids_sequential (fst (addStaticDocs fetchRaw kind entries (docs, logs))).
Proof.
  unfold addStaticDocs. revert docs logs.
  induction entries as [|e entries IH]; intros docs logs H; simpl; [exact H|].
  destruct (fetchText fetchRaw (se_url e) kind (se_name e)) as [body l].
  apply IH. apply ids_sequential_addDoc. exact H.
Qed.

(** ** X4
    Both loaders keep the ids of the store equal to the positions of the
    entries ([id = docs.length] at each push), so the [documentId] a
    search result reports retrieves that very entry. *)
Theorem loaders_keep_ids_positional
    (remark_root : string -> list mdnode) (remark_frontmatter : string -> list (string * string))
    (remark_value : string -> string) (tryFetchText : string -> option string)
    (basename : string -> string) (fetchRaw : string -> option string)
    (docs : list entry) (locs : list string) (kind : string) (entries : list static_entry)
    (logs : list string) :
  ids_sequential docs ->
  let bun := bun_loadDocs remark_root remark_frontmatter remark_value tryFetchText basename docs locs in
  let eff := fst (addStaticDocs fetchRaw kind entries (docs, logs)) in
  ids_sequential bun /\ ids_sequential eff /\
  (forall e, In e bun -> lookup bun (e_id e) = Some e) /\
  (forall e, In e eff -> lookup eff (e_id e) = Some e).
Proof.
  intros H bun eff.
  assert (Hb : ids_sequential bun) by (apply ids_sequential_bun_loadDocs; exact H).
  assert (He : ids_sequential eff) by (apply ids_sequential_addStaticDocs; exact H).
  split; [exact Hb|]. split; [exact He|].
  split; intros e Hin; apply ids_sequential_lookup; assumption.
Qed.

Lemma ids_sequential_nil : ids_sequential [].
Proof. intros [|i] e H; discriminate. Qed.

Lemma loaders_keep_ids_positional_witness :
  ids_sequential (bun_loadDocs sample_root (fun _ => []) (fun s => s) sample_fetch sample_basename
                    [] ["https://bun.com/docs/runtime"%string]).
Proof.
  destruct (loaders_keep_ids_positional sample_root (fun _ => []) (fun s => s) sample_fetch
              sample_basename (fun _ => None) [] ["https://bun.com/docs/runtime"%string]
              "guide"%string [] [] ids_sequential_nil) as [Hb _].
  exact Hb.
Defined.

(* ------------------------------------------------------------------ *)
(** ** The content cache *)

Lemma cache_get_coherent_fst (docs : list entry) (c : cache) (id : Z) :
  cache_coherent docs c -> fst (cache_get docs c id) = fst (cache_get docs ∅ id).
Proof.
  intros Hc. unfold cache_get. rewrite lookup_empty.
  destruct (c !! id) as [sl|] eqn:Hl.
  - destruct (Hc id sl Hl) as (e & He & ->). rewrite He. reflexivity.
  - destruct (lookup docs id); reflexivity.
Qed.

Lemma cache_get_coherent_snd (docs : list entry) (c : cache) (id : Z) :
  cache_coherent docs c ->
  (lookup docs id <> None -> cache_coherent docs (snd (cache_get docs c id))) /\
  (lookup docs id = None -> snd (cache_get docs c id) = <[id := Pending]> c).
Proof.
  intros Hc. assert (H := cache_coherent_get docs c id Hc).
  destruct (cache_get docs c id) as [[ls| | |] c']; simpl.
  - destruct H as [H (e & He & _)]. split; [intros _; exact H | congruence].
  - contradiction.
  - destruct H as (-> & Hn & _). split; [contradiction | reflexivity].
  - contradiction.
Qed.

(** What a repeated call returns: the first outcome, except that a defect
    becomes a call that never returns. *)
Definition repeat_outcome {A} (r : result A) : result A :=
  match r with
  | Die => Stuck
  | r' => r'
  end.

Lemma cache_get_again (docs : list entry) (c : cache) (id : Z) :
  cache_get docs (snd (cache_get docs c id)) id
    = (repeat_outcome (fst (cache_get docs c id)), snd (cache_get docs c id)).
Proof.
  unfold cache_get at 2 3 4. destruct (c !! id) as [[ls|]|] eqn:Hl.
  - cbn [snd fst repeat_outcome]. unfold cache_get. rewrite Hl. reflexivity.
  - cbn [snd fst repeat_outcome]. unfold cache_get. rewrite Hl. reflexivity.
  - destruct (lookup docs id) as [e|] eqn:He; cbn [snd fst repeat_outcome]; unfold cache_get;
      rewrite lookup_insert_eq; reflexivity.
Qed.

(** ** X5
    From a cache holding only completed lookups of the store
    ([cache_coherent]), the three reading tools give the outcome they give
    from an empty cache.  On an id with an entry they leave such a cache
    again; on an id with no entry, [get_bun_doc] and [get_bun_doc_pages]
    leave a pending cache entry for that id, and [get_bun_doc_section]
    leaves the cache unchanged. *)
Theorem cache_transparent (docs : list entry) (c : cache) (documentId : Z)
    (page pageSize endPage depth : option Q) (startPage : Q) (hd : string) :
  cache_coherent docs c ->
  fst (get_bun_doc docs c documentId page pageSize)
    = fst (get_bun_doc docs ∅ documentId page pageSize) /\
  fst (get_bun_doc_pages docs c documentId startPage endPage pageSize)
    = fst (get_bun_doc_pages docs ∅ documentId startPage endPage pageSize) /\
  fst (get_bun_doc_section docs c documentId hd depth pageSize)
    = fst (get_bun_doc_section docs ∅ documentId hd depth pageSize) /\
  (lookup docs documentId <> None ->
     cache_coherent docs (snd (get_bun_doc docs c documentId page pageSize)) /\
     cache_coherent docs (snd (get_bun_doc_pages docs c documentId startPage endPage pageSize)) /\
     cache_coherent docs (snd (get_bun_doc_section docs c documentId hd depth pageSize))) /\
  (lookup docs documentId = None ->
     snd (get_bun_doc docs c documentId page pageSize) = <[documentId := Pending]> c /\
     snd (get_bun_doc_pages docs c documentId startPage endPage pageSize)
       = <[documentId := Pending]> c /\
     snd (get_bun_doc_section docs c documentId hd depth pageSize) = c).
Proof.
  intros Hc.
  assert (Hf := cache_get_coherent_fst docs c documentId Hc).
  destruct (cache_get_coherent_snd docs c documentId Hc) as [Hs1 Hs2].
  unfold get_bun_doc, get_bun_doc_pages, get_bun_doc_section.
  destruct (cache_get docs c documentId) as [r c'] eqn:E1.
  destruct (cache_get docs ∅ documentId) as [r0 c0] eqn:E2.
  simpl in Hf, Hs1, Hs2. subst r0.
  destruct (lookup docs documentId) as [d|] eqn:Hd; simpl.
  - split; [reflexivity|]. split; [reflexivity|]. split; [reflexivity|].
    split; [|intros; discriminate].
    intros _. assert (H := Hs1 ltac:(discriminate)). repeat split; exact H.
  - split; [reflexivity|]. split; [reflexivity|]. split; [reflexivity|].
    split; [intros N; contradiction N; reflexivity|].
    intros _. rewrite (Hs2 eq_refl). repeat split.
Qed.

Definition warm_cache : cache := <[0 := Ready (JS.split_nl (e_content section_doc))]> ∅.

Lemma warm_cache_coherent : cache_coherent [section_doc] warm_cache.
Proof.
  intros id sl H. unfold warm_cache in H. destruct (decide (id = 0)) as [->|Hne].
  - rewrite lookup_insert_eq in H. injection H as <-. exists section_doc. split; reflexivity.
  - rewrite lookup_insert_ne, lookup_empty in H by congruence. discriminate.
Qed.

Lemma cache_transparent_witness :
  fst (get_bun_doc [section_doc] warm_cache 0 None None)
    = fst (get_bun_doc [section_doc] ∅ 0 None None).
Proof.
  destruct (cache_transparent [section_doc] warm_cache 0 None None None None 1%Q EmptyString
              warm_cache_coherent) as [H _].
  exact H.
Defined.

(** ** X6
    Repeating a call of [get_bun_doc], [get_bun_doc_pages] or
    [get_bun_doc_section] on the cache the first call left leaves that cache
    unchanged and gives the same outcome, except after a defect: the first
    call on an id with no entry left a pending entry for it, so the repeated
    call never returns. *)
Theorem repeated_read_stable (docs : list entry) (c : cache) (documentId : Z)
    (page pageSize endPage depth : option Q) (startPage : Q) (hd : string) :
  let g := get_bun_doc docs c documentId page pageSize in
  let gp := get_bun_doc_pages docs c documentId startPage endPage pageSize in
  let gs := get_bun_doc_section docs c documentId hd depth pageSize in
  get_bun_doc docs (snd g) documentId page pageSize = (repeat_outcome (fst g), snd g) /\
  get_bun_doc_pages docs (snd gp) documentId startPage endPage pageSize
    = (repeat_outcome (fst gp), snd gp) /\
  get_bun_doc_section docs (snd gs) documentId hd depth pageSize
    = (repeat_outcome (fst gs), snd gs).
Proof.
  intros g gp gs. unfold g, gp, gs.
  assert (Ha := cache_get_again docs c documentId).
  unfold get_bun_doc, get_bun_doc_pages, get_bun_doc_section.
  destruct (cache_get docs c documentId) as [r c'] eqn:E. simpl in Ha |- *.
  rewrite Ha.
  split; [destruct r; reflexivity|]. split; [destruct r; reflexivity|].
  destruct (lookup docs documentId); simpl; [|reflexivity].
  rewrite Ha. destruct r; simpl; [|reflexivity..].
  destruct (findSectionRange _ _ _); reflexivity.
Qed.

(* ------------------------------------------------------------------ *)
(** ** Pages *)

Lemma Qfloor_plus_Z (x : Q) (n : Z) : Qfloor (x + inject_Z n) = Qfloor x + n.
Proof.
  assert (H1 := Qfloor_le x). assert (H2 := Qlt_floor x).
  assert (H3 := Qfloor_le (x + inject_Z n)).
  apply Z.le_antisymm.
  - assert (Hlt : (inject_Z (Qfloor (x + inject_Z n)) < inject_Z (Qfloor x + 1 + n))%Q).
    { rewrite inject_Z_plus. apply (Qle_lt_trans _ (x + inject_Z n)); [exact H3|].
      apply Qplus_lt_l. exact H2. }
    rewrite <- Zlt_Qlt in Hlt. lia.
  - rewrite <- (Qfloor_Z (Qfloor x + n)). apply Qfloor_resp_le.
    rewrite inject_Z_plus. apply Qplus_le_l. exact H1.
Qed.

Lemma trunc_nonneg (x : Q) : (0 <= x)%Q -> JS.trunc x = Qfloor x /\ 0 <= Qfloor x.
Proof.
  intros Hx. unfold JS.trunc. apply Qle_bool_iff in Hx as Hb. rewrite Hb. split; [reflexivity|].
  change 0 with (Qfloor 0). apply Qfloor_resp_le. exact Hx.
Qed.

Lemma slice_z_decomp {A} (xs : list A) (s e : Z) :
  exists pre post, xs = pre ++ JS.slice_z xs s e ++ post /\
    (length (JS.slice_z xs s e)
     <= Z.to_nat (JS.rel_index (Z.of_nat (length xs)) e - JS.rel_index (Z.of_nat (length xs)) s))%nat.
Proof.
  unfold JS.slice_z.
  set (s' := JS.rel_index (Z.of_nat (length xs)) s).
  set (k := Z.to_nat (JS.rel_index (Z.of_nat (length xs)) e - s')).
  exists (firstn (Z.to_nat s') xs), (skipn k (skipn (Z.to_nat s') xs)).
  split.
  - rewrite firstn_skipn, firstn_skipn. reflexivity.
  - rewrite length_firstn. lia.
Qed.

(** The window [[offset, offset + size)] of a page, for a nonnegative
    offset, spans at most [size] lines. *)
Lemma page_window (len size : Z) (off : Q) :
  0 <= len -> 0 <= size -> (0 <= off)%Q ->
  JS.rel_index len (JS.trunc (off + inject_Z size)) - JS.rel_index len (JS.trunc off) <= size.
Proof.
  intros Hl Hs Ho.
  assert (Ho' : (0 <= off + inject_Z size)%Q).
  { apply (Qle_trans _ (off + 0)); [rewrite Qplus_0_r; exact Ho|].
    apply Qplus_le_r. change 0%Q with (inject_Z 0). rewrite <- Zle_Qle. exact Hs. }
  destruct (trunc_nonneg off Ho) as [T1 P1]. destruct (trunc_nonneg _ Ho') as [T2 _].
  rewrite T1, T2, Qfloor_plus_Z. unfold JS.rel_index.
  replace (Qfloor off <? 0) with false by (symmetry; apply Z.ltb_ge; lia).
  replace (Qfloor off + size <? 0) with false by (symmetry; apply Z.ltb_ge; lia).
  lia.
Qed.

(** The exact-arithmetic body of [get_bun_doc] returns a run of at most
    [size] consecutive lines, for every requested page. *)
Lemma bun_page_contiguous_exact (lines : list string) (page pageSize : option Q) :
  exists pre mid post,
    lines = pre ++ mid ++ post /\
    (length mid <= Z.to_nat (clampPageSize pageSize))%nat /\
    pr_content (bun_page lines page pageSize) = JS.join (String "010"%char EmptyString) mid.
Proof.
  assert (Hr := clampPageSize_range pageSize).
  unfold bun_page. cbv zeta. cbn [pr_content].
  set (size := clampPageSize pageSize) in *.
  set (pages := Z.max 1 (JS.ceil_div (Z.of_nat (length lines)) size)).
  set (cp := Qmin (Qmax (default 1%Q page) 1) (inject_Z pages)).
  assert (Hcp : (1 <= cp)%Q) by (apply (clamp_page_bounds _ pages); unfold pages; lia).
  assert (Ho : (0 <= (cp - 1) * inject_Z size)%Q).
  { apply Qmult_le_0_compat.
    - apply (Qplus_le_l _ _ 1). ring_simplify. exact Hcp.
    - change 0%Q with (inject_Z 0). rewrite <- Zle_Qle. lia. }
  unfold JS.slice.
  destruct (slice_z_decomp lines (JS.trunc ((cp - 1) * inject_Z size))
                               (JS.trunc ((cp - 1) * inject_Z size + inject_Z size)))
    as (pre & post & Hd & Hlen).
  assert (Hw := page_window (Z.of_nat (length lines)) size _ ltac:(lia) ltac:(lia) Ho).
  eexists pre, _, post. split; [exact Hd|]. split; [lia | reflexivity].
Qed.

(** Without [endPage], the exact-arithmetic bodies of [get_bun_doc_pages]
    and [get_bun_doc] agree. *)
Lemma bun_pages_without_end_exact (lines : list string) (startPage : Q)
    (pageSize : option Q) :
  let r := bun_pages lines startPage None pageSize in
  let p := bun_page lines (Some startPage) pageSize in
  ps_content r = pr_content p /\ ps_startPage r = pr_page p /\
  (ps_endPage r == pr_page p)%Q /\ ps_totalPages r = pr_totalPages p.
Proof.
  intros r p. unfold r, p, bun_pages, bun_page. cbv zeta. cbn -[JS.slice].
  assert (Hr := clampPageSize_range pageSize).
  set (size := clampPageSize pageSize) in *.
  set (pages := Z.max 1 (JS.ceil_div (Z.of_nat (length lines)) size)).
  set (s := Qmin (Qmax startPage 1) (inject_Z pages)).
  destruct (clamp_page_bounds startPage pages ltac:(unfold pages; lia)) as [H1 H2].
  fold s in H1, H2.
  assert (He : (Qmin (Qmax startPage s) (inject_Z pages) == s)%Q).
  { rewrite (clamp_then_raise startPage s (inject_Z pages) H1 H2). fold s.
    apply Q.max_id. }
  split; [|split; [reflexivity | split; [exact He | reflexivity]]].
  unfold JS.slice. f_equal. f_equal. apply trunc_comp. rewrite He. ring.
Qed.

(** ** X7
    For a whole (or absent) page number and a document of fewer than
    [2 ^ 32] lines, a page returned by [get_bun_doc], computing in doubles,
    is a run of consecutive lines of the document, of at most the clamped
    page size, joined with newlines. *)
Theorem bun_page_contiguous (lines : list string) (page pageSize : option Q) :
  Z.of_nat (length lines) < 2 ^ 32 -> whole_arg page ->
  exists pre mid post,
    lines = pre ++ mid ++ post /\
    (length mid <= Z.to_nat (clampPageSize pageSize))%nat /\
    pr_content (bun_page_f64 lines page pageSize) = JS.join (String "010"%char EmptyString) mid.
Proof.
  intros Hl Hw. rewrite bun_page_f64_exact by assumption.
  apply bun_page_contiguous_exact.
Qed.

Lemma bun_page_contiguous_witness :
  exists pre mid post,
    repeat "x"%string 10 = pre ++ mid ++ post /\
    (length mid <= Z.to_nat (clampPageSize (Some (inject_Z 5))))%nat /\
    pr_content (bun_page_f64 (repeat "x"%string 10) (Some (inject_Z 2)) (Some (inject_Z 5)))
      = JS.join (String "010"%char EmptyString) mid.
Proof.
  apply (bun_page_contiguous (repeat "x"%string 10) (Some (inject_Z 2)) (Some (inject_Z 5))).
  - vm_compute. reflexivity.
  - exists 2. reflexivity.
Defined.

(** ** X8
    For a whole [startPage] and a document of fewer than [2 ^ 32] lines,
    [get_bun_doc_pages] without [endPage] returns exactly the page
    [get_bun_doc] returns for the same [startPage] and [pageSize], both
    computing in doubles: the same content, the same page number as start
    and end, and the same page count. *)
Theorem bun_pages_without_end_is_bun_page (lines : list string) (startPage : Q)
    (pageSize : option Q) :
  Z.of_nat (length lines) < 2 ^ 32 -> whole startPage ->
  let r := bun_pages_f64 lines startPage None pageSize in
  let p := bun_page_f64 lines (Some startPage) pageSize in
  ps_content r = pr_content p /\ ps_startPage r = pr_page p /\
  (ps_endPage r == pr_page p)%Q /\ ps_totalPages r = pr_totalPages p.
Proof.
  intros Hl Hw. cbv zeta.
  rewrite bun_pages_f64_exact by (assumption || exact I).
  rewrite bun_page_f64_exact by assumption.
  apply bun_pages_without_end_exact.
Qed.

Lemma bun_pages_without_end_is_bun_page_witness :
  let r := bun_pages_f64 (repeat "x"%string 10) (inject_Z 3) None (Some (inject_Z 4)) in
  let p := bun_page_f64 (repeat "x"%string 10) (Some (inject_Z 3)) (Some (inject_Z 4)) in
  ps_content r = pr_content p /\ ps_startPage r = pr_page p /\
  (ps_endPage r == pr_page p)%Q /\ ps_totalPages r = pr_totalPages p.
Proof.
  apply (bun_pages_without_end_is_bun_page (repeat "x"%string 10) (inject_Z 3) (Some (inject_Z 4))).
  - vm_compute. reflexivity.
  - exists 3. reflexivity.
Defined.

Lemma bun_pages_all (lines : list string) (endPage : Q) (pageSize : option Q) :
  (inject_Z (Z.of_nat (length lines)) <= endPage)%Q ->
  ps_content (bun_pages lines 1 (Some endPage) pageSize)
    = JS.join (String "010"%char EmptyString) lines.
Proof.
  intros He. unfold bun_pages. cbv zeta. cbn [ps_content default].
  assert (Hr := clampPageSize_range pageSize).
  set (size := clampPageSize pageSize) in *.
  set (len := Z.of_nat (length lines)) in *.
  set (pages := Z.max 1 (JS.ceil_div len size)).
  assert (Hm := ceil_div_mul len size ltac:(lia)).
  assert (Hle := ceil_div_le len size ltac:(lia) ltac:(lia)).
  assert (Hp1 : 1 <= pages) by (unfold pages; lia).
  set (s := Qmin (Qmax 1 1) (inject_Z pages)).
  destruct (clamp_page_bounds 1 pages Hp1) as [Hs1 Hs2]. fold s in Hs1, Hs2.
  assert (Hs : (s == 1)%Q).
  { apply Qle_antisym; [|exact Hs1]. unfold s.
    apply (Qle_trans _ (Qmax 1 1)); [apply Q.le_min_l | apply Q.max_lub; apply Qle_refl]. }
  assert (Hge : (inject_Z pages <= Qmax endPage s)%Q).
  { destruct (Z.le_gt_cases pages len) as [Hpl|Hpl].
    - apply (Qle_trans _ endPage); [|apply Q.le_max_l].
      apply (Qle_trans _ (inject_Z len)); [rewrite <- Zle_Qle; exact Hpl | exact He].
    - assert (pages = 1) by (unfold pages in *; lia).
      apply (Qle_trans _ s); [|apply Q.le_max_r]. rewrite Hs. rewrite H. apply Qle_refl. }
  assert (Hend : (Qmin (Qmax endPage s) (inject_Z pages) == inject_Z pages)%Q)
    by (apply Q.min_r; exact Hge).
  unfold JS.slice. change (id endPage) with endPage.
  rewrite (trunc_comp ((s - 1) * inject_Z size) (inject_Z 0)) by (rewrite Hs; ring).
  rewrite (trunc_comp (Qmin (Qmax endPage s) (inject_Z pages) * inject_Z size)
                      (inject_Z (pages * size)))
    by (rewrite Hend, inject_Z_mult; reflexivity).
  rewrite !trunc_Z by nia.
  unfold JS.slice_z, JS.rel_index. fold len.
  replace (0 <? 0) with false by reflexivity.
  replace (pages * size <? 0) with false by (symmetry; apply Z.ltb_ge; nia).
  replace (Z.min (pages * size) len) with len by nia.
  replace (Z.min 0 len) with 0 by lia.
  rewrite Z.sub_0_r. simpl skipn. unfold len. rewrite Nat2Z.id, firstn_all. reflexivity.
Qed.

(** ** X9
    Asking [get_bun_doc_pages] for the pages from 1 up to at least the
    document's line count (so past its last page) returns the whole
    document unchanged, whatever the page size and whatever the cache held
    before. *)
Theorem pages_full_range_roundtrip (docs : list entry) (c : cache) (documentId : Z) (d : entry)
    (endPage : Q) (pageSize : option Q) :
  cache_coherent docs c ->
  lookup docs documentId = Some d ->
  (inject_Z (Z.of_nat (length (JS.split_nl (e_content d)))) <= endPage)%Q ->
  exists r, fst (get_bun_doc_pages docs c documentId 1 (Some endPage) pageSize) = Ok r /\
            ps_content r = e_content d.
Proof.
  intros Hc Hd He.
  assert (Hg := cache_coherent_get docs c documentId Hc).
  unfold get_bun_doc_pages.
  destruct (cache_get docs c documentId) as [[ls| | |] c'];
    [|contradiction|destruct Hg as (_ & Hg & _); congruence|contradiction].
  destruct Hg as [_ (e & He' & ->)]. rewrite Hd in He'. injection He' as <-.
  eexists. split; [reflexivity|].
  rewrite bun_pages_all by exact He. apply join_split_nl.
Qed.

Lemma pages_full_range_roundtrip_witness :
  exists r, fst (get_bun_doc_pages [section_doc] ∅ 0 1 (Some 3%Q) (Some 1%Q)) = Ok r /\
            ps_content r = e_content section_doc.
Proof.
  apply (pages_full_range_roundtrip [section_doc] ∅ 0 section_doc 3%Q (Some 1%Q)).
  - exact (cache_coherent_empty _).
  - reflexivity.
  - vm_compute. discriminate.
Defined.

(* ------------------------------------------------------------------ *)
(** ** Section lookup *)

Lemma prefix_refl (s : string) : String.prefix s s = true.
Proof.
  induction s as [|c s IH]; [reflexivity|]. simpl.
  destruct (ascii_dec c c) as [_|n]; [exact IH | contradiction].
Qed.

Lemma includes_refl (s : string) : JS.includes s s = true.
Proof.
  assert (H := prefix_refl s).
  destruct s; cbn -[String.prefix]; rewrite H; reflexivity.
Qed.

(** ** X10
    Searching a heading's own text always locates a section: with no
    [depth], or with the heading's own depth, [findSectionRange] finds a
    heading (the first eligible one whose normalised text contains the
    normalised query, possibly an earlier heading). *)
Theorem findSectionRange_own_text (hs : list heading) (h : heading) (depth : option Q) :
  In h hs ->
  depth = None \/ depth = Some (inject_Z (h_depth h)) ->
  exists m, findSectionRange hs (h_text h) depth = Some m.
Proof.
  intros Hin Hd.
  assert (He : In h (eligible hs depth)).
  { destruct Hd as [Hn | Hs]; [rewrite Hn; exact Hin|]. rewrite Hs. unfold eligible.
    destruct (Qeq_bool (inject_Z (h_depth h)) 0); [exact Hin|].
    apply filter_In. split; [exact Hin | apply Qeq_bool_refl]. }
  unfold findSectionRange.
  destruct (List.find _ (eligible hs depth)) as [m|] eqn:Hf.
  - eexists. reflexivity.
  - exfalso. assert (H := find_none _ _ Hf h He). cbv beta in H.
    rewrite includes_refl in H. discriminate.
Qed.

Lemma findSectionRange_own_text_witness :
  exists m, findSectionRange example_outline "Features"%string (Some 2%Q) = Some m.
Proof.
  apply (findSectionRange_own_text example_outline
           {| h_depth := 2; h_text := "Features"; h_line := Some 10 |} (Some 2%Q)).
  - simpl. right. right. left. reflexivity.
  - right. reflexivity.
Defined.

(** ** X11
    With a nonzero [depth], the located section starts at a heading of
    exactly that depth whose normalised text contains the normalised
    query. *)
Theorem findSectionRange_depth_respected (hs : list heading) (query : string) (d : Q) (m : range) :
  ~ (d == 0)%Q ->
  findSectionRange hs query (Some d) = Some m ->
  exists h, In h hs /\ (inject_Z (h_depth h) == d)%Q /\ startLine m = h_line h /\
            JS.includes (norm (h_text h)) (norm query) = true.
Proof.
  intros Hd Hm. unfold findSectionRange, eligible in Hm.
  destruct (Qeq_bool d 0) eqn:H0; [apply Qeq_bool_iff in H0; contradiction|].
  destruct (List.find _ _) as [h|] eqn:Hf; [|discriminate].
  injection Hm as <-. destruct (find_some _ _ Hf) as [Hin Hq].
  apply filter_In in Hin as [Hin Hdep]. apply Qeq_bool_iff in Hdep.
  exists h. repeat split; assumption.
Qed.

Lemma findSectionRange_depth_respected_witness :
  exists h, In h example_outline /\ (inject_Z (h_depth h) == 2)%Q /\
            startLine {| startLine := Some 2; endLine := EndAt 9 |} = h_line h /\
            JS.includes (norm (h_text h)) (norm "intro"%string) = true.
Proof.
  apply (findSectionRange_depth_respected example_outline "intro"%string 2%Q).
  - discriminate.
  - reflexivity.
Defined.

(* ------------------------------------------------------------------ *)
(** ** Section text and section pages *)

Lemma firstn_add {A} (n m : nat) (l : list A) :
  firstn (n + m) l = firstn n l ++ firstn m (skipn n l).
Proof.
  revert l. induction n as [|n IH]; intros l; [reflexivity|].
  destruct l as [|x l]; simpl; [destruct m; reflexivity | rewrite IH; reflexivity].
Qed.

Lemma slice_z_nonneg {A} (xs : list A) (a b : Z) :
  0 <= a -> 0 <= b ->
  JS.slice_z xs a b
    = firstn (Z.to_nat (Z.min b (Z.of_nat (length xs)) - Z.min a (Z.of_nat (length xs))))
             (skipn (Z.to_nat (Z.min a (Z.of_nat (length xs)))) xs).
Proof.
  intros Ha Hb. unfold JS.slice_z, JS.rel_index.
  replace (a <? 0) with false by (symmetry; apply Z.ltb_ge; lia).
  replace (b <? 0) with false by (symmetry; apply Z.ltb_ge; lia). reflexivity.
Qed.

(** Lines [[a, x)], [[x, y)] and [[y, b)] make up lines [[a, b)]. *)
Lemma slice_z_split3 {A} (xs : list A) (a x y b : Z) :
  0 <= a <= x -> x <= y -> y <= Z.of_nat (length xs) -> y <= b ->
  JS.slice_z xs a b = JS.slice_z xs a x ++ JS.slice_z xs x y ++ JS.slice_z xs y b.
Proof.
  intros Ha Hx Hy Hb. rewrite !slice_z_nonneg by lia.
  set (len := Z.of_nat (length xs)) in *.
  replace (Z.min a len) with a by lia. replace (Z.min x len) with x by lia.
  replace (Z.min y len) with y by lia.
  replace (Z.to_nat (Z.min b len - a))
    with (Z.to_nat (x - a) + (Z.to_nat (y - x) + Z.to_nat (Z.min b len - y)))%nat by lia.
  rewrite firstn_add, firstn_add, !skipn_skipn.
  replace (Z.to_nat (x - a) + Z.to_nat a)%nat with (Z.to_nat x) by lia.
  replace (Z.to_nat (y - x) + Z.to_nat x)%nat with (Z.to_nat y) by lia.
  reflexivity.
Qed.

(** A successful [get_bun_doc_section] call, unfolded. *)
Lemma section_success (docs : list entry) (c : cache) (documentId : Z) (d : entry)
    (hd : string) (depth pageSize : option Q) (r : section_result) (c' : cache) :
  cache_coherent docs c ->
  lookup docs documentId = Some d ->
  get_bun_doc_section docs c documentId hd depth pageSize = (Ok r, c') ->
  exists m, findSectionRange (e_headings d) hd depth = Some m /\
    r = section_payload (JS.split_nl (e_content d)) (clampPageSize pageSize) m /\
    cache_get docs c' documentId = (Ok (JS.split_nl (e_content d)), c').
Proof.
  intros Hc Hd H.
  assert (Ha := cache_get_again docs c documentId).
  assert (Hg := cache_coherent_get docs c documentId Hc).
  unfold get_bun_doc_section in H. rewrite Hd in H.
  destruct (cache_get docs c documentId) as [[ls| | |] c''] eqn:E;
    [|contradiction|destruct Hg as (_ & Hg & _); congruence|contradiction].
  destruct Hg as [_ (e & He & ->)]. rewrite Hd in He. injection He as <-.
  cbn [bind_lines] in H. simpl in Ha.
  destruct (findSectionRange (e_headings d) hd depth) as [m|] eqn:Hm; [|discriminate].
  injection H as <- <-. exists m. split; [reflexivity|]. split; [reflexivity | exact Ha].
Qed.

(** The payload of a located range of a well-formed outline, unfolded. *)
Lemma section_payload_shape (lines : list string) (size : Z) (m : range) (s : Z) :
  startLine m = Some s -> 1 <= s ->
  (endLine m = EndInf \/ exists x, endLine m = EndAt x /\ s <= x) ->
  let len := Z.of_nat (length lines) in
  let pages := Z.max 1 (JS.ceil_div len size) in
  let r := section_payload lines size m in
  exists t, sr_fromLine r = Some s /\ sr_toLine r = Some t /\ 0 <= t <= len /\
    (s <= len -> s <= t) /\
    sr_content r = JS.join (String "010"%char EmptyString) (JS.slice_z lines (s - 1) t) /\
    sr_pageStart r = Some (Z.min (Z.max (JS.ceil_div s size) 1) pages) /\
    sr_pageEnd r = Some (Z.min (Z.max (JS.ceil_div t size)
                                      (Z.min (Z.max (JS.ceil_div s size) 1) pages)) pages).
Proof.
  intros Hs Hs1 He len pages r. unfold r, section_payload. rewrite Hs.
  cbn [option_map default]. replace (Z.max 1 s) with s by lia. fold len. fold pages.
  destruct He as [Hinf|(x & Hx & Hsx)]; rewrite ?Hinf, ?Hx; cbn [option_map default].
  - exists len. repeat split; try (unfold len; lia).
  - exists (Z.min len x). repeat split; try (unfold len; lia).
Qed.

(** ** X12
    The text [get_bun_doc_section] returns for a well-formed outline is
    lines [fromLine] to [toLine] of the document (1-based, inclusive),
    joined with newlines; it is empty when [fromLine > toLine]. *)
Theorem section_content_is_line_range (docs : list entry) (c : cache) (documentId : Z)
    (d : entry) (hd : string) (depth pageSize : option Q) (r : section_result) (c' : cache) :
  cache_coherent docs c ->
  lookup docs documentId = Some d ->
  outline_well_formed (e_headings d) ->
  get_bun_doc_section docs c documentId hd depth pageSize = (Ok r, c') ->
  exists f t, sr_fromLine r = Some f /\ sr_toLine r = Some t /\
    sr_content r = JS.join (String "010"%char EmptyString)
                     (firstn (Z.to_nat (t - f + 1)) (skipn (Z.to_nat (f - 1)) (JS.split_nl (e_content d)))).
Proof.
  intros Hc Hd Hwf H.
  destruct (section_success docs c documentId d hd depth pageSize r c' Hc Hd H) as (m & Hm & -> & _).
  destruct (findSectionRange_numeric _ _ _ _ Hwf Hm) as (s & Hs & Hs1 & Hend).
  destruct (section_payload_shape (JS.split_nl (e_content d)) (clampPageSize pageSize) m s Hs Hs1 Hend)
    as (t & Hf & Ht & Ht0 & _ & Hcnt & _).
  exists s, t. split; [exact Hf|]. split; [exact Ht|]. rewrite Hcnt. f_equal.
  rewrite slice_z_nonneg by lia.
  set (lines := JS.split_nl (e_content d)) in *.
  set (len := Z.of_nat (length lines)) in *.
  replace (Z.min t len) with t by lia.
  destruct (Z.le_gt_cases (s - 1) len) as [Hl|Hl].
  - replace (Z.min (s - 1) len) with (s - 1) by lia.
    replace (t - (s - 1)) with (t - s + 1) by lia. reflexivity.
  - replace (Z.min (s - 1) len) with len by lia.
    rewrite (skipn_all2 (n := Z.to_nat len) lines) by (unfold len in *; lia).
    rewrite (skipn_all2 (n := Z.to_nat (s - 1)) lines) by (unfold len in *; lia).
    rewrite !firstn_nil. reflexivity.
Qed.

Lemma section_content_is_line_range_witness :
  exists f t, sr_fromLine section_call_result = Some f /\ sr_toLine section_call_result = Some t /\
    sr_content section_call_result
      = JS.join (String "010"%char EmptyString)
          (firstn (Z.to_nat (t - f + 1)) (skipn (Z.to_nat (f - 1)) (JS.split_nl (e_content section_doc)))).
Proof.
  apply (section_content_is_line_range [section_doc] ∅ 0 section_doc "intro"%string None None
           section_call_result (snd section_call)).
  - exact (cache_coherent_empty _).
  - reflexivity.
  - exact example_outline_well_formed.
  - vm_compute. reflexivity.
Defined.

(** ** X13
    For a document whose headings all carry 1-based line numbers in
    strictly increasing order (the Bun loader registers headings without
    lines, see C1 and C5) and a cache coherent with the store, the page
    range a successful [get_bun_doc_section] reports covers the section:
    calling [get_bun_doc_pages] on the cache the section call left, with
    [startPage = pageStart], [endPage = pageEnd] and the same [pageSize],
    succeeds and its text consists of lines, then exactly the section's
    lines, then lines. *)
Theorem section_within_reported_pages (docs : list entry) (c : cache) (documentId : Z)
    (d : entry) (hd : string) (depth pageSize : option Q) (r : section_result) (c' : cache) :
  cache_coherent docs c ->
  lookup docs documentId = Some d ->
  outline_well_formed (e_headings d) ->
  get_bun_doc_section docs c documentId hd depth pageSize = (Ok r, c') ->
  exists ps pe pr pre mid post,
    sr_pageStart r = Some ps /\ sr_pageEnd r = Some pe /\
    sr_content r = JS.join (String "010"%char EmptyString) mid /\
    fst (get_bun_doc_pages docs c' documentId (inject_Z ps) (Some (inject_Z pe)) pageSize) = Ok pr /\
    ps_content pr = JS.join (String "010"%char EmptyString) (pre ++ mid ++ post).
Proof.
  intros Hc Hd Hwf H.
  destruct (section_success docs c documentId d hd depth pageSize r c' Hc Hd H)
    as (m & Hm & -> & Hget).
  destruct (findSectionRange_numeric _ _ _ _ Hwf Hm) as (s & Hs & Hs1 & Hend).
  assert (Hr := clampPageSize_range pageSize).
  set (size := clampPageSize pageSize) in *.
  set (lines := JS.split_nl (e_content d)) in *.
  destruct (section_payload_shape lines size m s Hs Hs1 Hend)
    as (t & _ & _ & Ht0 & Hst & Hcnt & Hps & Hpe).
  set (len := Z.of_nat (length lines)) in *.
  set (pages := Z.max 1 (JS.ceil_div len size)) in *.
  set (ps := Z.min (Z.max (JS.ceil_div s size) 1) pages) in *.
  set (pe := Z.min (Z.max (JS.ceil_div t size) ps) pages) in *.
  assert (Hp1 : 1 <= pages) by (unfold pages; lia).
  assert (Hps1 : 1 <= ps <= pe /\ pe <= pages) by (unfold ps, pe; lia).
  unfold get_bun_doc_pages. rewrite Hget. cbn [bind_lines fst].
  (* the page range as offsets *)
  assert (Hsq : (Qmin (Qmax (inject_Z ps) 1) (inject_Z pages) == inject_Z ps)%Q).
  { rewrite Q.max_l by (change 1%Q with (inject_Z 1); rewrite <- Zle_Qle; lia).
    apply Q.min_l. rewrite <- Zle_Qle. lia. }
  assert (Heq : (Qmin (Qmax (inject_Z pe) (Qmin (Qmax (inject_Z ps) 1) (inject_Z pages)))
                      (inject_Z pages) == inject_Z pe)%Q).
  { rewrite Hsq. rewrite Q.max_l by (rewrite <- Zle_Qle; lia).
    apply Q.min_l. rewrite <- Zle_Qle. lia. }
  set (a := (ps - 1) * size). set (b := pe * size).
  assert (Hcontent : ps_content (bun_pages lines (inject_Z ps) (Some (inject_Z pe)) pageSize)
                     = JS.join (String "010"%char EmptyString) (JS.slice_z lines a b)).
  { unfold bun_pages. cbv zeta. fold size. fold len. fold pages. cbn [ps_content].
    change (default (inject_Z ps) (Some (inject_Z pe))) with (inject_Z pe).
    unfold JS.slice. f_equal. f_equal.
    - rewrite (trunc_comp _ (inject_Z a)); [apply trunc_Z; unfold a; nia|].
      unfold a. rewrite Hsq, inject_Z_mult.
      apply Qmult_comp; [|reflexivity].
      replace (ps - 1) with (ps + -1) by ring. rewrite inject_Z_plus. reflexivity.
    - rewrite (trunc_comp _ (inject_Z b)); [apply trunc_Z; unfold b; nia|].
      unfold b. rewrite Heq, inject_Z_mult. reflexivity. }
  destruct (Z.le_gt_cases s len) as [Hsl|Hsl].
  - (* the section starts inside the document: its lines sit in the window *)
    assert (Hst' := Hst Hsl).
    assert (Hcs : JS.ceil_div s size <= pages).
    { unfold pages. assert (JS.ceil_div s size <= JS.ceil_div len size)
        by (apply ceil_div_mono; lia). lia. }
    assert (Hcs1 := ceil_div_pos s size ltac:(lia) Hs1).
    assert (Hps_eq : ps = JS.ceil_div s size) by (unfold ps; lia).
    assert (Ha : a <= s - 1).
    { assert (H1 := ceil_div_lower s size ltac:(lia)). unfold a. rewrite Hps_eq. lia. }
    assert (Hct : JS.ceil_div t size <= pe).
    { assert (JS.ceil_div t size <= JS.ceil_div len size) by (apply ceil_div_mono; lia).
      unfold pe. lia. }
    assert (Hb : t <= b).
    { assert (H1 := ceil_div_mul t size ltac:(lia)). unfold b. nia. }
    assert (Ha0 : 0 <= a) by (unfold a; nia).
    rewrite (slice_z_split3 lines a (s - 1) t b) in Hcontent by lia.
    do 6 eexists. split; [exact Hps|]. split; [exact Hpe|]. split; [exact Hcnt|].
    split; [reflexivity | exact Hcontent].
  - (* the section starts past the end: it is empty *)
    assert (Hnil : JS.slice_z lines (s - 1) t = []).
    { rewrite slice_z_nonneg by lia. fold len.
      replace (Z.to_nat (Z.min t len - Z.min (s - 1) len)) with 0%nat by lia. reflexivity. }
    rewrite Hnil in Hcnt.
    exists ps, pe, (bun_pages lines (inject_Z ps) (Some (inject_Z pe)) pageSize),
      (JS.slice_z lines a b), [], [].
    split; [exact Hps|]. split; [exact Hpe|]. split; [exact Hcnt|].
    split; [reflexivity|]. rewrite !app_nil_r. exact Hcontent.
Qed.

Lemma section_within_reported_pages_witness :
  exists ps pe pr pre mid post,
    sr_pageStart section_call_result = Some ps /\ sr_pageEnd section_call_result = Some pe /\
    sr_content section_call_result = JS.join (String "010"%char EmptyString) mid /\
    fst (get_bun_doc_pages [section_doc] (snd section_call) 0 (inject_Z ps) (Some (inject_Z pe)) None)
      = Ok pr /\
    ps_content pr = JS.join (String "010"%char EmptyString) (pre ++ mid ++ post).
Proof.
  apply (section_within_reported_pages [section_doc] ∅ 0 section_doc "intro"%string None None
           section_call_result (snd section_call)).
  - exact (cache_coherent_empty _).
  - reflexivity.
  - exact example_outline_well_formed.
  - vm_compute. reflexivity.
Defined.

(* ------------------------------------------------------------------ *)
(** ** Reference entries *)

Lemma ext_tail_cons (c : ascii) (r : string) :
  r <> EmptyString ->
  ext_tail (String c r) = (negb (Ascii.eqb c "/"%char || Ascii.eqb c "."%char) && ext_tail r)%bool.
Proof. intros H. destruct r; [contradiction | reflexivity]. Qed.

Lemma ext_tail_period (x y : string) : ext_tail (x ++ String "."%char y) = false.
Proof.
  induction x as [|c x IH]; [reflexivity|].
  rewrite str_app_cons, ext_tail_cons by (destruct x; discriminate).
  rewrite IH. apply andb_false_r.
Qed.

(** ** X14
    [moduleTitle] removes a final extension: a module named [base.ext],
    where [ext] is one or more characters none of which is a slash or a
    period, gets the title [base] ([internal/Effect.ts] gives
    [internal/Effect]); a module name without a period is kept as is. *)
Theorem moduleTitle_strips_extension (base ext name : string) :
  ext_tail ext = true ->
  (forall n, String.get n name <> Some "."%char) ->
  strip_ext (base ++ String "."%char ext) = base /\ strip_ext name = name.
Proof.
  intros He Hn. split.
  - induction base as [|c base IH].
    + simpl. rewrite He. reflexivity.
    + rewrite str_app_cons. cbn [strip_ext]. rewrite ext_tail_period, andb_false_r, IH.
      reflexivity.
  - induction name as [|c name IH]; [reflexivity|].
    cbn [strip_ext].
    assert (Hc : Ascii.eqb c "."%char = false).
    { apply Ascii.eqb_neq. intros ->. exact (Hn 0%nat eq_refl). }
    rewrite Hc. simpl. f_equal. apply IH. intros n. exact (Hn (S n)).
Qed.

Lemma moduleTitle_strips_extension_witness :
  strip_ext "internal/Effect.ts"%string = "internal/Effect"%string /\
  strip_ext "Effect"%string = "Effect"%string.
Proof.
  apply (moduleTitle_strips_extension "internal/Effect"%string "ts"%string "Effect"%string).
  - reflexivity.
  - intros [|[|[|[|[|[|[|n]]]]]]]; simpl; discriminate.
Defined.

Lemma fold_to_hit_descriptions (f : doc_entry -> doc) (l : list doc_entry) (docs : list entry) :
  map (fun e => hit_description (to_hit e)) (fold_left (fun acc e => addDoc acc (f e)) l docs)
    = map (fun e => hit_description (to_hit e)) docs
      ++ map (fun e => default (d_preview (f e)) (d_description (f e))) l.
Proof.
  revert docs. induction l as [|x l IH]; intros docs; simpl.
  - rewrite app_nil_r. reflexivity.
  - rewrite IH. unfold addDoc. rewrite map_app, <- app_assoc. reflexivity.
Qed.

(** ** X15
    A reference entry always carries a description ([description ?? ""]),
    so the search payload's [description ?? preview] shows its description,
    or the empty string when it has none, and never its preview. *)
Theorem reference_search_shows_description (prettify : string -> string)
    (fetchEntries : string -> option (list doc_entry)) (docUrls : list string) (docs : list entry) :
  map (fun e => hit_description (to_hit e)) (loadReferenceDocs prettify fetchEntries docUrls docs)
    = map (fun e => hit_description (to_hit e)) docs
      ++ map (fun de => default EmptyString (de_description de))
             (flat_map (fun u => default [] (fetchEntries u)) docUrls).
Proof.
  unfold loadReferenceDocs. rewrite fold_to_hit_descriptions. reflexivity.
Qed.

(* ------------------------------------------------------------------ *)
(** ** Bun and website entries *)

Lemma str_or_nonempty (a b : string) : b <> EmptyString -> JS.str_or a b <> EmptyString.
Proof. intros Hb. unfold JS.str_or. destruct a; simpl; [exact Hb | discriminate]. Qed.

Lemma bun_ingest_nonempty
    (remark_root : string -> list mdnode) (remark_frontmatter : string -> list (string * string))
    (remark_value : string -> string) (tryFetchText : string -> option string)
    (basename : string -> string) (loc : string) (d : doc) :
  basename loc <> EmptyString ->
  bun_ingest remark_root remark_frontmatter remark_value tryFetchText basename loc = Some d ->
  d_title d <> EmptyString /\ d_preview d <> EmptyString.
Proof.
  intros Hb H. unfold bun_ingest in H.
  destruct (tryFetchText _) as [raw|]; [|discriminate].
  revert H. generalize (process remark_root remark_frontmatter remark_value raw).
  intros file H. injection H as <-. cbn [d_title d_preview].
  split.
  - apply str_or_nonempty. exact Hb.
  - apply str_or_nonempty.
    destruct (f_description file); [apply str_or_nonempty; exact Hb | exact Hb].
Qed.

(** ** X17
    Every entry the Bun loader registers has a non-empty title
    ([file.title || titleFromPath]) and a non-empty preview, provided the
    path of every documentation URL has a non-empty base name. *)
Theorem bun_entries_titled
    (remark_root : string -> list mdnode) (remark_frontmatter : string -> list (string * string))
    (remark_value : string -> string) (tryFetchText : string -> option string)
    (basename : string -> string) (docs : list entry) (locs : list string) :
  (forall loc, String.prefix "https://bun.com/docs/" loc = true -> basename loc <> EmptyString) ->
  Forall (fun e => e_title e <> EmptyString /\ e_preview e <> EmptyString) docs ->
  Forall (fun e => e_title e <> EmptyString /\ e_preview e <> EmptyString)
    (bun_loadDocs remark_root remark_frontmatter remark_value tryFetchText basename docs locs).
Proof.
  intros Hb. unfold bun_loadDocs.
  assert (Hu : forall loc, In loc (bun_urls locs) -> basename loc <> EmptyString).
  { intros loc Hin. apply Hb. unfold bun_urls in Hin. apply filter_In in Hin. apply Hin. }
  revert docs. induction (bun_urls locs) as [|loc l IH]; intros docs Hd; simpl; [exact Hd|].
  apply IH; [intros x Hx; apply Hu; right; exact Hx|].
  destruct (bun_ingest _ _ _ _ _ loc) as [d|] eqn:Hi; [|exact Hd].
  destruct (bun_ingest_nonempty _ _ _ _ _ _ _ (Hu loc (or_introl eq_refl)) Hi) as [Ht Hp].
  unfold addDoc. apply Forall_app. split; [exact Hd|].
  constructor; [split; assumption | constructor].
Qed.

Lemma bun_entries_titled_witness :
  Forall (fun e => e_title e <> EmptyString /\ e_preview e <> EmptyString)
    (bun_loadDocs sample_root (fun _ => []) (fun s => s) sample_fetch sample_basename
       [] ["https://bun.com/docs/runtime"%string]).
Proof.
  apply bun_entries_titled.
  - intros loc _. unfold sample_basename. discriminate.
  - constructor.
Defined.

Lemma get_docs_no_hyphen (n : nat) : String.get n "docs"%string <> Some "-"%char.
Proof. destruct n as [|[|[|[|n]]]]; simpl; discriminate. Qed.

Lemma get_app_at (a b : string) (c : ascii) :
  String.get (String.length a) (a ++ String c b)%string = Some c.
Proof. induction a as [|x a IH]; [reflexivity|]. exact IH. Qed.

(** ** X18
    A website page in directory [a-b] gets the title [a b - title]: only
    the first hyphen of the directory name becomes a space, so
    [getting-started-guide] gives [getting started-guide - title]. *)
Theorem website_title_first_hyphen (a b fileTitle : string) :
  (forall n, String.get n a <> Some "-"%char) ->
  website_title (a ++ String "-"%char b) fileTitle
    = (a ++ String " "%char b ++ " - " ++ fileTitle)%string.
Proof.
  intros Ha. unfold website_title.
  destruct (String.eqb (a ++ String "-"%char b) "docs") eqn:E.
  - exfalso. apply String.eqb_eq in E.
    apply (get_docs_no_hyphen (String.length a)). rewrite <- E. apply get_app_at.
  - rewrite (str_app_assoc a (String " "%char b)). f_equal. clear E.
    induction a as [|c a IH]; [reflexivity|].
    rewrite !str_app_cons. cbn [replace_first_hyphen].
      assert (Hc : Ascii.eqb c "-"%char = false).
      { apply Ascii.eqb_neq. intros ->. exact (Ha 0%nat eq_refl). }
      rewrite Hc. f_equal. apply IH. intros n. exact (Ha (S n)).
Qed.

Lemma website_title_first_hyphen_witness :
  website_title "getting-started-guide"%string "Intro"%string
    = "getting started-guide - Intro"%string.
Proof.
  apply (website_title_first_hyphen "getting"%string "started-guide"%string "Intro"%string).
  intros [|[|[|[|[|[|[|n]]]]]]]; simpl; discriminate.
Defined.

Lemma process_description_nonempty (remark_root : string -> list mdnode)
    (remark_frontmatter : string -> list (string * string)) (remark_value : string -> string)
    (md : string) (ds : string) :
  f_description (process remark_root remark_frontmatter remark_value md) = Some ds ->
  ds <> EmptyString.
Proof.
  unfold process. cbn [f_description].
  match goal with |- (if JS.truthy ?x then _ else _) = _ -> _ => destruct x eqn:E end;
    simpl; intros H; [discriminate | injection H as <-; discriminate].
Qed.

(** ** X19
    A processed website page registered under a non-empty title also has a
    non-empty preview: the preview falls back from the page text to the
    description (non-empty whenever [Markdown.process] sets one) and then
    to the title. *)
Theorem website_preview_nonempty (remark_root : string -> list mdnode)
    (remark_frontmatter : string -> list (string * string)) (remark_value : string -> string)
    (md dirname : string) :
  let d := website_doc dirname (process remark_root remark_frontmatter remark_value md) in
  d_title d <> EmptyString -> d_preview d <> EmptyString.
Proof.
  intros d Ht. unfold d, website_doc in *. cbn [d_title d_preview] in *.
  destruct (JS.truthy (makePreview _)) eqn:Hp.
  - intros E. rewrite E in Hp. discriminate.
  - destruct (f_description (process remark_root remark_frontmatter remark_value md)) as [ds|] eqn:Hd.
    + exact (process_description_nonempty _ _ _ _ _ Hd).
    + exact Ht.
Qed.

Lemma website_preview_nonempty_witness :
  d_preview (website_doc "getting-started"%string (process sample_root (fun _ => []) (fun s => s) "# Main"%string))
    <> EmptyString.
Proof.
  apply (website_preview_nonempty sample_root (fun _ => []) (fun s => s) "# Main"%string "getting-started"%string).
  vm_compute. discriminate.
Defined.
